(** * Authentication and authorization core of the task-management backend

    A shallow embedding of the Python sources under [Phase-II/src]:
    [utils/jwt.py], [utils/password.py], [utils/validation.py],
    [utils/authz.py], [schemas/auth.py], [schemas/task.py],
    [models/user.py], [models/task.py], [services/token_service.py],
    [services/user_service.py], [services/task_service.py],
    [database/service.py], [api/deps.py], [api/auth.py] and [api/tasks.py].

    Conventions of the embedding.
    - A Python call that may raise returns a [result]; [Raise e] carries the
      exception object.  [try ... except C] is [try_except], which filters on
      the exception class.
    - Instants ([datetime]) and durations ([timedelta]) are integers counting
      microseconds, the resolution of both Python types.
    - State that a method mutates ([self], the database session) is passed in
      and returned.
    - A [uuid.UUID] is represented by its canonical text form, so that
      [str(user.id)] is the identity.
    - A Python [str] is represented by the string of its UTF-8 bytes.  Its
      code points, which [len] counts and [re.search] scans, are read back
      from the bytes by [str.code_points]; the classes of the email pattern
      hold ASCII characters only and are tested on the bytes. *)

From Stdlib Require Import ZArith Lia Ascii String.
From stdpp Require Import base option list strings gmap sets.

Local Open Scope string_scope.
Local Open Scope Z_scope.

(** ** Python exceptions and fallible computations *)

Module Py.

(** Exception classes of PyJWT ([jwt.exceptions]). *)
Inductive pyjwt_error :=
| DecodeError
| InvalidAlgorithmError
| InvalidSignatureError
| ExpiredSignatureError.

(** The exception objects the modelled code can see.  [HTTPException] is
    FastAPI's, with its status code, detail and headers.  [JoseJWTError] is
    [jose.JWTError], the class named by the [except] clauses of
    [utils/jwt.py]; the tokens themselves are handled by the [jwt] module
    (PyJWT), whose exceptions are a separate hierarchy. *)
Inductive exn :=
| HTTPException (status_code : Z) (detail : string)
                (headers : list (string * string))
| PyJWTError (kind : pyjwt_error)
| JoseJWTError
| ValidationError
| UnknownHashError
| MalformedHashError
| MissingDigestError
| PasswordValueError
| PasswordSizeError
| RedisError
| IntegrityError.

Inductive result (A : Type) :=
| Ok (a : A)
| Raise (e : exn).
Arguments Ok {A} a.
Arguments Raise {A} e.

Definition bind {A B} (m : result A) (k : A -> result B) : result B :=
  match m with
  | Ok a => k a
  | Raise e => Raise e
  end.

(** [try: body except C: handler], where [C] is given by the test
    [isinstance(e, C)]. *)
Definition try_except {A} (body : result A) (isinstance : exn -> bool)
    (handler : exn -> result A) : result A :=
  match body with
  | Ok a => Ok a
  | Raise e => if isinstance e then handler e else Raise e
  end.

Definition is_ok {A} (m : result A) : bool :=
  match m with Ok _ => true | Raise _ => false end.

(** [isinstance(e, jose.JWTError)]. *)
Definition isinstance_JWTError (e : exn) : bool :=
  match e with JoseJWTError => true | _ => false end.

(** [isinstance(e, Exception)]: every exception modelled here. *)
Definition isinstance_Exception (e : exn) : bool := true.

Definition HTTP_400_BAD_REQUEST : Z := 400.
Definition HTTP_401_UNAUTHORIZED : Z := 401.
Definition HTTP_404_NOT_FOUND : Z := 404.

Definition bearer_headers : list (string * string) :=
  [("WWW-Authenticate", "Bearer")].

End Py.
Export Py.

Global Instance result_ret : MRet result := @Ok.
Global Instance result_bind : MBind result := fun A B k m => bind m k.

(** ** Time *)

Module datetime.

Definition second : Z := 1000000.
Definition hours (h : Z) : Z := h * 3600 * second.
Definition days (d : Z) : Z := d * 24 * 3600 * second.

(** [calendar.timegm(t.utctimetuple())]: whole seconds since the epoch, the
    microseconds dropped. *)
Definition timegm (t : Z) : Z := t / second.

End datetime.

(** ** JSON values and signed tokens *)

Inductive json :=
| JNull
| JStr (s : string)
| JNum (n : Z).

Global Instance json_eq_dec : EqDecision json.
Proof. solve_decision. Defined.

Global Instance json_countable : Countable json :=
  inj_countable'
    (fun j => match j with
              | JNull => inl ()
              | JStr s => inr (inl s)
              | JNum n => inr (inr n)
              end)
    (fun x => match x with
              | inl _ => JNull
              | inr (inl s) => JStr s
              | inr (inr n) => JNum n
              end)
    (fun j => match j with JNull | JStr _ | JNum _ => eq_refl end).

(** [d.get(k)]: Python's [None] for a missing key, which is also what a JSON
    [null] decodes to. *)
Definition dict_get (d : gmap string json) (k : string) : json :=
  default JNull (d !! k).

(** A token string as the verifier sees it: either it is not a compact JWS
    (it does not split into three base64url segments holding a JSON header
    and a JSON object), or it determines the header's algorithm, the claims
    and the signature. *)
Inductive token :=
| NotAJws (raw : string)
| Jws (alg : string) (payload : gmap string json) (signature : string).

Global Instance token_eq_dec : EqDecision token.
Proof. solve_decision. Defined.

Global Instance token_countable : Countable token :=
  inj_countable'
    (fun t => match t with
              | NotAJws raw => inl raw
              | Jws alg payload sig => inr (alg, payload, sig)
              end)
    (fun x => match x with
              | inl raw => NotAJws raw
              | inr (alg, payload, sig) => Jws alg payload sig
              end)
    (fun t => match t with NotAJws _ | Jws _ _ _ => eq_refl end).

(** The keyed hash of the signing scheme (HMAC-SHA256 over the header and the
    claims), an interface of the cryptographic library. *)
Class Hmac := hmac_sha256 : string -> string * gmap string json -> string.

(** ** config/settings.py *)

Record Settings := {
  BETTER_AUTH_SECRET : string;
  JWT_EXPIRATION_HOURS : Z;
  REDIS_URL : option string
}.

(** ** The [jwt] module (PyJWT), as [utils/jwt.py] calls it *)

Module jwt.
Section jwt.
Context `{Hmac}.

(** [jwt.encode(payload, key, algorithm)]. *)
Definition encode (payload : gmap string json) (key algorithm : string)
    : token :=
  Jws algorithm payload (hmac_sha256 key (algorithm, payload)).

(** Modelled from the spec: the decoder of the signed-claims scheme, which
    is the library's and not in the sources ("decodes, checks signature,
    checks [exp > now]"; "clock skew is not compensated; verification uses
    strict [>] comparison").  [jwt.decode(token, key, algorithms)] is
    called at instant [now] with the default options, so without leeway.
    The checks come in the library's order: the token parses, its algorithm
    is an allowed one, the signature is the key's, and an [exp] claim, when
    there is one, is an integer number of seconds still ahead of [now]. *)
Definition decode (now : Z) (tok : token) (key : string)
    (algorithms : list string) : result (gmap string json) :=
  match tok with
  | NotAJws _ => Raise (PyJWTError DecodeError)
  | Jws alg payload sig =>
      if negb (bool_decide (alg ∈ algorithms)) then
        Raise (PyJWTError InvalidAlgorithmError)
      else if negb (bool_decide (sig = hmac_sha256 key (alg, payload))) then
        Raise (PyJWTError InvalidSignatureError)
      else
        match payload !! "exp" with
        | None => Ok payload
        | Some (JNum exp) =>
            if bool_decide (exp * datetime.second <= now) then
              Raise (PyJWTError ExpiredSignatureError)
            else Ok payload
        | Some _ => Raise (PyJWTError DecodeError)
        end
  end.

End jwt.
End jwt.

(** ** schemas/auth.py *)

Module TokenData.
Record t := {
  user_id : string;
  email : string;
  exp : option Z
}.

(** [TokenData(user_id=..., email=...)]: both fields are declared [str],
    and the model refuses any other value. *)
Definition new (user_id email : json) : result t :=
  match user_id, email with
  | JStr u, JStr e => Ok {| user_id := u; email := e; exp := None |}
  | _, _ => Raise ValidationError
  end.
End TokenData.

Module LoginRequest.
Record t := {
  email : string;
  password : string
}.
End LoginRequest.

Module AuthResponse.
Record t := {
  success : bool;
  token : token;
  user : string * string  (* id, email *)
}.
End AuthResponse.

(** ** utils/jwt.py *)

Module utils_jwt.
Section utils_jwt.
Context `{Hmac}.
Variable settings : Settings.

(** [timedelta.__bool__]: a zero duration is false, like [None]. *)
Definition truthy (expires_delta : option Z) : bool :=
  match expires_delta with
  | Some d => negb (d =? 0)
  | None => false
  end.

(** [create_access_token(data, expires_delta)] at instant [utcnow].  The
    [exp] entry is written as the integer the encoder turns the datetime
    into. *)
Definition create_access_token (utcnow : Z) (data : gmap string json)
    (expires_delta : option Z) : token :=
  let to_encode := data in
  let expire :=
    if truthy expires_delta then utcnow + default 0 expires_delta
    else utcnow + datetime.hours (JWT_EXPIRATION_HOURS settings) in
  let to_encode := <["exp" := JNum (datetime.timegm expire)]> to_encode in
  jwt.encode to_encode (BETTER_AUTH_SECRET settings) "HS256".

(** [create_refresh_token(data, expires_delta)]: as above with seven days
    by default and the extra entry ["type": "refresh"]. *)
Definition create_refresh_token (utcnow : Z) (data : gmap string json)
    (expires_delta : option Z) : token :=
  let to_encode := data in
  let expire :=
    if truthy expires_delta then utcnow + default 0 expires_delta
    else utcnow + datetime.days 7 in
  let to_encode :=
    <["type" := JStr "refresh"]>
      (<["exp" := JNum (datetime.timegm expire)]> to_encode) in
  jwt.encode to_encode (BETTER_AUTH_SECRET settings) "HS256".

Definition default_credentials_exception : exn :=
  HTTPException HTTP_401_UNAUTHORIZED "Could not validate credentials"
                bearer_headers.

(** [verify_token(token, credentials_exception)]. *)
Definition verify_token (now : Z) (tok : token)
    (credentials_exception : option exn) : result TokenData.t :=
  let credentials_exception :=
    default default_credentials_exception credentials_exception in
  try_except
    (payload ← jwt.decode now tok (BETTER_AUTH_SECRET settings) ["HS256"];
     let user_id := dict_get payload "sub" in
     let email := dict_get payload "email" in
     if bool_decide (user_id = JNull) || bool_decide (email = JNull) then
       Raise credentials_exception
     else
       TokenData.new user_id email)
    isinstance_JWTError
    (fun _ => Raise credentials_exception).

(** [verify_access_token(token)]. *)
Definition verify_access_token (now : Z) (tok : token) : result TokenData.t :=
  verify_token now tok None.

(** [verify_refresh_token(token)]. *)
Definition verify_refresh_token (now : Z) (tok : token)
    : result TokenData.t :=
  try_except
    (payload ← jwt.decode now tok (BETTER_AUTH_SECRET settings) ["HS256"];
     let token_type := dict_get payload "type" in
     if negb (bool_decide (token_type = JStr "refresh")) then
       Raise (HTTPException HTTP_401_UNAUTHORIZED "Invalid token type"
                            bearer_headers)
     else
       let user_id := dict_get payload "sub" in
       let email := dict_get payload "email" in
       if bool_decide (user_id = JNull) || bool_decide (email = JNull) then
         Raise (HTTPException HTTP_401_UNAUTHORIZED
                              "Could not validate credentials"
                              bearer_headers)
       else
         TokenData.new user_id email)
    isinstance_JWTError
    (fun _ => Raise (HTTPException HTTP_401_UNAUTHORIZED
                                   "Could not validate refresh token"
                                   bearer_headers)).

(** [refresh_access_token(refresh_token)]. *)
Definition refresh_access_token (now : Z) (refresh_token : token)
    : result token :=
  token_data ← verify_refresh_token now refresh_token;
  let new_token_data : gmap string json :=
    <["email" := JStr (TokenData.email token_data)]>
      (<["sub" := JStr (TokenData.user_id token_data)]> ∅) in
  Ok (create_access_token now new_token_data None).

End utils_jwt.
End utils_jwt.

(** ** Text *)

(** The Unicode character database of the interpreter, for the one question
    the patterns of this code ask of it: whether a code point is a decimal
    digit (general category Nd), which is what [\d] matches in a pattern
    applied to a [str]. *)
Class Unicode := isdecimal : N -> bool.

Module str.

Definition byte (c : ascii) : N := Ascii.N_of_ascii c.

(** A continuation byte of UTF-8, [10xxxxxx]. *)
Definition is_continuation (b : N) : bool := ((128 <=? b) && (b <? 192))%N.

(** The bits of a code point that the first byte of its encoding holds:
    [0xxxxxxx], [110xxxxx], [1110xxxx] or [11110xxx]. *)
Definition lead_bits (b : N) : N :=
  (if b <? 128 then b
   else if b <? 224 then b mod 32
   else if b <? 240 then b mod 16
   else b mod 8)%N.

(** The code points of the bytes [s], read after a code point whose
    encoding is under way and has given [pending] so far: a continuation
    byte brings six more bits, any other byte starts the next code point. *)
Fixpoint decode_from (pending : option N) (s : string) : list N :=
  match s with
  | EmptyString => option_list pending
  | String c s' =>
      let b := byte c in
      if is_continuation b then
        decode_from (Some (default 0 pending * 64 + b mod 64)%N) s'
      else (option_list pending ++ decode_from (Some (lead_bits b)) s')%list
  end.

Definition code_points (s : string) : list N := decode_from None s.

(** [len(s)]: the number of code points of [s]. *)
Definition len (s : string) : nat := length (code_points s).

End str.

(** ** Regular expressions, as [re.match] applies them *)

Module re.

Inductive regex :=
| Void
| Eps
| Cls (p : ascii -> bool)
| Cat (r1 r2 : regex)
| Alt (r1 r2 : regex)
| Star (r : regex).

Definition Plus (r : regex) : regex := Cat r (Star r).
Definition AtLeast2 (r : regex) : regex := Cat r (Cat r (Star r)).

Fixpoint nullable (r : regex) : bool :=
  match r with
  | Void => false
  | Eps => true
  | Cls _ => false
  | Cat r1 r2 => nullable r1 && nullable r2
  | Alt r1 r2 => nullable r1 || nullable r2
  | Star _ => true
  end.

Fixpoint deriv (c : ascii) (r : regex) : regex :=
  match r with
  | Void => Void
  | Eps => Void
  | Cls p => if p c then Eps else Void
  | Cat r1 r2 =>
      if nullable r1 then Alt (Cat (deriv c r1) r2) (deriv c r2)
      else Cat (deriv c r1) r2
  | Alt r1 r2 => Alt (deriv c r1) (deriv c r2)
  | Star r1 => Cat (deriv c r1) (Star r1)
  end.

(** The whole string is in the language of [r]. *)
Fixpoint fullmatch (r : regex) (s : string) : bool :=
  match s with
  | EmptyString => nullable r
  | String c s' => fullmatch (deriv c r) s'
  end.

Definition code (c : ascii) : Z := Z.of_N (Ascii.N_of_ascii c).
Definition range (lo hi : ascii) (c : ascii) : bool :=
  (code lo <=? code c) && (code c <=? code hi).
Definition lit (x : ascii) : regex := Cls (fun c => bool_decide (c = x)).

(** The end anchor of a pattern matched without [re.MULTILINE]: the end of
    the string, or just before a newline that ends it. *)
Definition dollar : regex := Alt Eps (lit "010"%char).

(** [re.match(r'^' body '$', s) is not None]. *)
Definition match_anchored (body : regex) (s : string) : bool :=
  fullmatch (Cat body dollar) s.

(** [re.search(r'[...]', s) is not None] for a pattern that is a single
    character class: some code point of [s] is in the class. *)
Definition search_cls (p : N -> bool) (s : string) : bool :=
  existsb p (str.code_points s).

(** A class given by its two ends, as [[A-Z]], on code points. *)
Definition between (lo hi : ascii) (c : N) : bool :=
  ((str.byte lo <=? c) && (c <=? str.byte hi))%N.

(** [\d] in a pattern applied to a [str]: a decimal digit of any script. *)
Definition digit `{Unicode} (c : N) : bool := isdecimal c.

End re.

(** ** utils/validation.py *)

Module validation.
Import re.

Definition alpha (c : ascii) : bool :=
  range "a" "z" c || range "A" "Z" c.
Definition alnum (c : ascii) : bool := alpha c || range "0" "9" c.

(** [[a-zA-Z0-9._%+-]] *)
Definition local_char (c : ascii) : bool :=
  alnum c || bool_decide (c ∈ ["."; "_"; "%"; "+"; "-"]%char).
(** [[a-zA-Z0-9.-]] *)
Definition domain_char (c : ascii) : bool :=
  alnum c || bool_decide (c ∈ ["."; "-"]%char).

(** [^[a-zA-Z0-9._%+-]+@[a-zA-Z0-9.-]+\.[a-zA-Z]{2,}$] *)
Definition email_pattern : regex :=
  Cat (Plus (Cls local_char))
    (Cat (lit "@")
      (Cat (Plus (Cls domain_char))
        (Cat (lit ".") (AtLeast2 (Cls alpha))))).

Definition validate_email_format (email : string) : bool :=
  match_anchored email_pattern email.

(** [s.replace(old, new)] for a pattern [old] of one character. *)
Fixpoint replace_char (old : ascii) (new : string) (s : string) : string :=
  match s with
  | EmptyString => EmptyString
  | String c s' =>
      if bool_decide (c = old) then new +:+ replace_char old new s'
      else String c (replace_char old new s')
  end.

(** [validate_password_strength(password)]: the verdict and, on refusal, the
    message. *)
Definition validate_password_strength `{Unicode} (password : string)
    : bool * option string :=
  if Z.of_nat (str.len password) <? 8 then
    (false, Some "Password must be at least 8 characters long")
  else if negb (search_cls (between "A" "Z") password) then
    (false, Some "Password must contain at least one uppercase letter")
  else if negb (search_cls (between "a" "z") password) then
    (false, Some "Password must contain at least one lowercase letter")
  else if negb (search_cls digit password) then
    (false, Some "Password must contain at least one digit")
  else (true, None).

(** [sanitize_input(input_str)]: six replacements, one after the other. *)
Definition sanitize_input (input_str : string) : string :=
  let sanitized := replace_char ">" "&gt;" (replace_char "<" "&lt;" input_str) in
  let sanitized :=
    replace_char "'" "&#x27;" (replace_char "034" "&quot;" sanitized) in
  let sanitized :=
    replace_char "\" "&#x5C;" (replace_char "/" "&#x2F;" sanitized) in
  sanitized.

End validation.

(** ** The password context (passlib), as [utils/password.py] builds it *)

(** The library is not part of the repository.  The definitions of this
    part are modelled from the library, passlib 1.7: what its context and its
    handler framework do on a call of [verify], in the order they do it.  The
    bcrypt algorithm itself stays an interface. *)

Record bcrypt_hash := {
  ident : string;
  rounds : Z;
  salt : string;
  checksum : option string
}.

(** The bcrypt handler's parser and digest: [from_string] gives no record for
    a string that is not laid out as a bcrypt hash, and the digest may refuse
    the secret. *)
Class Bcrypt := {
  bcrypt_from_string : string -> option bcrypt_hash;
  bcrypt_calc_checksum : string -> bcrypt_hash -> result string
}.

(** The bcrypt handler's [hash]: the hash string of a secret under the salt
    that was drawn for it; it may refuse the secret. *)
Class BcryptHasher :=
  bcrypt_hash_secret : string -> string -> result string.

Module CryptContext.
Section CryptContext.
Context `{Bcrypt}.

Definition ident_values : list string :=
  ["$2$"; "$2a$"; "$2x$"; "$2y$"; "$2b$"].

Fixpoint startswith (s p : string) : bool :=
  match p, s with
  | EmptyString, _ => true
  | String c p', String d s' => bool_decide (c = d) && startswith s' p'
  | String _ _, EmptyString => false
  end.

(** The handler's [identify]: the hash starts with one of the scheme's
    identifiers. *)
Definition bcrypt_identify (hash : string) : bool :=
  existsb (startswith hash) ident_values.

(** The library's limit on the size of a secret, in characters
    ([MAX_PASSWORD_SIZE], when the environment does not set another). *)
Definition MAX_PASSWORD_SIZE : Z := 4096.

(** The library's [validate_secret]: a secret over the limit is refused
    ([passlib.exc.PasswordSizeError], a [ValueError]). *)
Definition validate_secret (secret : string) : result unit :=
  if MAX_PASSWORD_SIZE <? Z.of_nat (str.len secret) then
    Raise PasswordSizeError
  else Ok ().

(** The handler's [verify]: check the size of the secret, parse the hash,
    then compare its digest with the digest of the secret. *)
Definition bcrypt_verify (secret hash : string) : result bool :=
  _ ← validate_secret secret;
  match bcrypt_from_string hash with
  | None => Raise MalformedHashError
  | Some h =>
      match checksum h with
      | None => Raise MissingDigestError
      | Some chk =>
          computed ← bcrypt_calc_checksum secret h;
          Ok (bool_decide (computed = chk))
      end
  end.

(** [CryptContext(schemes=["bcrypt"], deprecated="auto").identify_hash]. *)
Definition identify_hash (hash : string) : option string :=
  if bcrypt_identify hash then Some "bcrypt" else None.

(** [CryptContext(schemes=["bcrypt"], deprecated="auto").verify], the
    library's: the scheme is looked up by identifying the hash, before the
    secret is looked at; a hash that no scheme of the context identifies is
    an error ([passlib.exc.UnknownHashError], a [ValueError]), and so is a
    hash the identified handler cannot parse. *)
Definition verify (secret hash : string) : result bool :=
  if bcrypt_identify hash then bcrypt_verify secret hash
  else Raise UnknownHashError.

(** [CryptContext(schemes=["bcrypt"], deprecated="auto").hash], with the
    salt the call draws. *)
Definition hash `{BcryptHasher} (salt secret : string) : result string :=
  bcrypt_hash_secret salt secret.

End CryptContext.
End CryptContext.

(** ** utils/password.py *)

Module password.
Section password.
Context `{Bcrypt}.

(** [verify_password(plain_password, hashed_password)]. *)
Definition verify_password (plain_password hashed_password : string)
    : result bool :=
  CryptContext.verify plain_password hashed_password.

(** [is_hash_valid(hashed_password)]. *)
Definition is_hash_valid (hashed_password : string) : bool :=
  bool_decide (CryptContext.identify_hash hashed_password ≠ None).

(** [hash_password(password)], with the salt the call draws. *)
Definition hash_password `{BcryptHasher} (salt password : string)
    : result string :=
  CryptContext.hash salt password.

(** [validate_password_requirements(password)]. *)
Definition validate_password_requirements `{Unicode} (password : string)
    : bool * string :=
  if Z.of_nat (str.len password) <? 8 then
    (false, "Password must be at least 8 characters long")
  else if negb (re.search_cls (re.between "A" "Z") password) then
    (false, "Password must contain at least one uppercase letter")
  else if negb (re.search_cls (re.between "a" "z") password) then
    (false, "Password must contain at least one lowercase letter")
  else if negb (re.search_cls re.digit password) then
    (false, "Password must contain at least one digit")
  else (true, "").

(** The class of the special characters: one of
    ! @ # $ % ^ & * ( ) , . ? : { } | < > or the double quote. *)
Definition special_char (c : N) : bool :=
  bool_decide
    (c ∈ str.byte <$>
           ["!"; "@"; "#"; "$"; "%"; "^"; "&"; "*"; "("; ")"; ","; "."; "?";
            "034"; ":"; "{"; "}"; "|"; "<"; ">"]%char).

Record PasswordStrength := {
  score : Z;
  strength : string;
  feedback : list string
}.

(** One check of [get_password_strength]: a point, or a line of feedback. *)
Definition check (passed : bool) (advice : string) (acc : Z * list string)
    : Z * list string :=
  if passed then (fst acc + 1, snd acc) else (fst acc, (snd acc ++ [advice])%list).

Definition strength_levels : list string :=
  ["Very Weak"; "Weak"; "Fair"; "Good"; "Strong"].

(** [get_password_strength(password)]; [None] stands for the [IndexError]
    of a level that is not in the list. *)
Definition get_password_strength `{Unicode} (password : string)
    : option PasswordStrength :=
  let acc := (0, []) in
  let acc := check (8 <=? Z.of_nat (str.len password))
                   "Password should be at least 8 characters long" acc in
  let acc := check (re.search_cls (re.between "a" "z") password)
                   "Add lowercase letters" acc in
  let acc := check (re.search_cls (re.between "A" "Z") password)
                   "Add uppercase letters" acc in
  let acc := check (re.search_cls re.digit password) "Add numbers" acc in
  let acc := check (re.search_cls special_char password)
                   "Add special characters" acc in
  let '(score, feedback) := acc in
  level ← strength_levels !! Z.to_nat (Z.min score 4);
  Some {| score := score; strength := level; feedback := feedback |}.

End password.
End password.

(** ** schemas/auth.py: the registration request *)

(** What a field validator gives: the value, or the [ValueError] it raises
    with its message. *)
Inductive validated (A : Type) :=
| Valid (v : A)
| ValueError (msg : string).
Arguments Valid {A} v.
Arguments ValueError {A} msg.

Module RegisterRequest.
Record t := {
  email : string;
  password : string;
  confirm_password : string
}.

(** The validator of [password]. *)
Definition validate_password `{Unicode} (v : string) : validated string :=
  if Z.of_nat (str.len v) <? 8 then
    ValueError "Password must be at least 8 characters long"
  else if negb (re.search_cls (re.between "A" "Z") v) then
    ValueError "Password must contain at least one uppercase letter"
  else if negb (re.search_cls (re.between "a" "z") v) then
    ValueError "Password must contain at least one lowercase letter"
  else if negb (re.search_cls re.digit v) then
    ValueError "Password must contain at least one digit"
  else Valid v.

(** The validator of [confirm_password]; [values] holds the password when
    its own validation has passed. *)
Definition passwords_match (v : string) (values : option string)
    : validated string :=
  match values with
  | Some password =>
      if negb (bool_decide (v = password)) then
        ValueError "Passwords do not match"
      else Valid v
  | None => Valid v
  end.

(** [RegisterRequest(email=..., password=..., confirm_password=...)]: the
    validators run in the order of the fields, and the request exists only
    when none of them has raised. *)
Definition new `{Unicode} (email password confirm_password : string)
    : result t :=
  match validate_password password with
  | ValueError _ => Raise ValidationError
  | Valid password =>
      match passwords_match confirm_password (Some password) with
      | ValueError _ => Raise ValidationError
      | Valid confirm_password =>
          Ok {| email := email; password := password;
                confirm_password := confirm_password |}
      end
  end.
End RegisterRequest.

Module RefreshTokenResponse.
Record t := {
  access_token : token;
  token_type : string;
  expires_in : Z
}.
End RefreshTokenResponse.

(** ** models/user.py, models/task.py and the database session *)

Module User.
Record t := {
  id : string;
  email : string;
  hashed_password : string;
  is_active : bool;
  created_at : Z;
  updated_at : Z
}.
End User.

Inductive TaskPriority := LOW | MEDIUM | HIGH.

Module Task.
Record t := {
  id : string;
  title : string;
  description : option string;
  due_date : option Z;
  priority : TaskPriority;
  completed : bool;
  user_id : string;
  created_at : Z;
  updated_at : Z
}.
End Task.

(** schemas/task.py: every field is optional; [None] is a field the request
    left unset, [Some None] one it set to [null]. *)
Module TaskUpdate.
Record t := {
  title : option (option string);
  description : option (option string);
  due_date : option (option Z);
  priority : option (option TaskPriority);
  completed : option (option bool)
}.
End TaskUpdate.

Inductive UserRole := ADMIN | USER.

(** models/user.py: [UserCreate]; the email is a field of at most 255
    characters. *)
Module UserCreate.
Record t := {
  email : string;
  is_active : bool;
  password : string;
  role : option UserRole
}.

Definition new (email password : string) (is_active : bool) : result t :=
  if 255 <? Z.of_nat (str.len email) then Raise ValidationError
  else Ok {| email := email; is_active := is_active; password := password;
             role := Some USER |}.
End UserCreate.

(** schemas/task.py: [TaskCreate] and [TaskPatch]. *)
Module TaskCreate.
Record t := {
  title : string;
  description : option string;
  due_date : option Z;
  priority : TaskPriority;
  completed : bool
}.
End TaskCreate.

Module TaskPatch.
Record t := {
  completed : option (option bool)
}.
End TaskPatch.

(** The rows of the two tables, in the order a [select] returns them. *)
Record Session := {
  users : list User.t;
  tasks : list Task.t
}.

(** ** database/service.py *)

Module DatabaseService.

(** [select(User).where(User.id == user_id)] then [.first()].  The id
    reaches the query as text and is compared with the canonical text of the
    rows' ids; what else the column type may read as the same UUID (another
    spelling of it) is not modelled. *)
Definition get_user_by_id (session : Session) (user_id : string)
    : option User.t :=
  List.find (fun u => bool_decide (User.id u = user_id)) (users session).

(** [select(User).where(User.email == email)] then [.first()]. *)
Definition get_user_by_email (session : Session) (email : string)
    : option User.t :=
  List.find (fun u => bool_decide (User.email u = email)) (users session).

(** [session.add(user); session.commit()] for a new row.  The table has a
    primary key on [id] and a unique index on [email]; a row that breaks
    either is refused.  (Strings are taken to fit their columns.) *)
Definition insert_user (session : Session) (user : User.t) : result Session :=
  if existsb (fun u => bool_decide (User.id u = User.id user)) (users session)
  then Raise IntegrityError
  else if existsb (fun u => bool_decide (User.email u = User.email user))
                  (users session)
  then Raise IntegrityError
  else Ok {| users := users session ++ [user]; tasks := tasks session |}.

(** [session.add(user); session.commit()] for a loaded row whose email is
    unchanged: the row with the user's primary key is rewritten.  (Strings
    are taken to fit their columns.) *)
Definition commit_user (session : Session) (user : User.t) : Session :=
  {| users := List.map
                (fun r => if bool_decide (User.id r = User.id user)
                          then user else r)
                (users session);
     tasks := tasks session |}.

(** [DatabaseService.create_user(session, user_create)].  [new_id] is the
    identifier [uuid4] draws, [salt] the salt the hash draws, [created_at]
    and [updated_at] the instants the two default factories read. *)
Definition create_user `{BcryptHasher} (session : Session)
    (user_create : UserCreate.t) (new_id salt : string)
    (created_at updated_at : Z) : result (User.t * Session) :=
  hashed_password ← password.hash_password salt
                      (UserCreate.password user_create);
  let user :=
    {| User.id := new_id;
       User.email := UserCreate.email user_create;
       User.hashed_password := hashed_password;
       User.is_active := UserCreate.is_active user_create;
       User.created_at := created_at;
       User.updated_at := updated_at |} in
  session ← insert_user session user;
  Ok (user, session).

End DatabaseService.

(** ** services/user_service.py *)

Module UserService.
Section UserService.
Context `{Hmac} `{Bcrypt}.
Variable settings : Settings.

(** [UserService.authenticate_user(db, login_data)] at instant [now]:
    [None] when authentication fails, the token and the user otherwise. *)
Definition authenticate_user (db : Session) (now : Z)
    (login_data : LoginRequest.t) : result (option AuthResponse.t) :=
  let user :=
    DatabaseService.get_user_by_email db (LoginRequest.email login_data) in
  match user with
  | None => Ok None
  | Some user =>
      verified ← password.verify_password
                   (LoginRequest.password login_data)
                   (User.hashed_password user);
      if negb verified then Ok None
      else if negb (User.is_active user) then Ok None
      else
        let token_data : gmap string json :=
          <["email" := JStr (User.email user)]>
            (<["sub" := JStr (User.id user)]> ∅) in
        let access_token :=
          utils_jwt.create_access_token settings now token_data None in
        Ok (Some {| AuthResponse.success := true;
                    AuthResponse.token := access_token;
                    AuthResponse.user := (User.id user, User.email user) |})
  end.

(** [UserService.get_user_by_id(db, user_id)]. *)
Definition get_user_by_id (db : Session) (user_id : string)
    : option User.t :=
  DatabaseService.get_user_by_id db user_id.

(** [UserService.register_user(db, user_data)]; [now] is the instant the
    token is issued.  (The test of a user that was not created is left out:
    [create_user] returns the user or raises.) *)
Definition register_user `{BcryptHasher} (db : Session)
    (user_data : RegisterRequest.t) (new_id salt : string)
    (created_at updated_at now : Z)
    : result (option AuthResponse.t * Session) :=
  let existing_user :=
    DatabaseService.get_user_by_email db (RegisterRequest.email user_data) in
  match existing_user with
  | Some _ => Ok (None, db)
  | None =>
      user_create ← UserCreate.new (RegisterRequest.email user_data)
                      (RegisterRequest.password user_data) true;
      r ← DatabaseService.create_user db user_create new_id salt
            created_at updated_at;
      let '(user, db) := r in
      let token_data : gmap string json :=
        <["email" := JStr (User.email user)]>
          (<["sub" := JStr (User.id user)]> ∅) in
      let access_token :=
        utils_jwt.create_access_token settings now token_data None in
      Ok (Some {| AuthResponse.success := true;
                  AuthResponse.token := access_token;
                  AuthResponse.user := (User.id user, User.email user) |},
          db)
  end.

Definition set_hashed_password (hashed_password : string) (user : User.t)
    : User.t :=
  {| User.id := User.id user;
     User.email := User.email user;
     User.hashed_password := hashed_password;
     User.is_active := User.is_active user;
     User.created_at := User.created_at user;
     User.updated_at := User.updated_at user |}.

Definition set_is_active (is_active : bool) (user : User.t) : User.t :=
  {| User.id := User.id user;
     User.email := User.email user;
     User.hashed_password := User.hashed_password user;
     User.is_active := is_active;
     User.created_at := User.created_at user;
     User.updated_at := User.updated_at user |}.

(** [UserService.update_user_password(db, user_id, new_password)]. *)
Definition update_user_password `{BcryptHasher} (db : Session)
    (user_id new_password salt : string) : result (bool * Session) :=
  match DatabaseService.get_user_by_id db user_id with
  | None => Ok (false, db)
  | Some user =>
      hashed_password ← password.hash_password salt new_password;
      let user := set_hashed_password hashed_password user in
      Ok (true, DatabaseService.commit_user db user)
  end.

(** [UserService.deactivate_user(db, user_id)]. *)
Definition deactivate_user (db : Session) (user_id : string)
    : bool * Session :=
  match DatabaseService.get_user_by_id db user_id with
  | None => (false, db)
  | Some user =>
      (true, DatabaseService.commit_user db (set_is_active false user))
  end.

(** [UserService.activate_user(db, user_id)]. *)
Definition activate_user (db : Session) (user_id : string)
    : bool * Session :=
  match DatabaseService.get_user_by_id db user_id with
  | None => (false, db)
  | Some user =>
      (true, DatabaseService.commit_user db (set_is_active true user))
  end.

(** [UserService.create_access_token_for_user(user)] at instant [now]. *)
Definition create_access_token_for_user (now : Z) (user : User.t) : token :=
  let token_data : gmap string json :=
    <["email" := JStr (User.email user)]>
      (<["sub" := JStr (User.id user)]> ∅) in
  utils_jwt.create_access_token settings now token_data None.

End UserService.
End UserService.

(** ** The revocation store, as [services/token_service.py] calls it *)

(** The two families of keys, [f"blacklisted_token:{token}"] and
    [f"user_logout:{user_id}"]. *)
Inductive redis_key :=
| blacklisted_token (tok : token)
| user_logout (user_id : string).

Global Instance redis_key_eq_dec : EqDecision redis_key.
Proof. solve_decision. Defined.

Global Instance redis_key_countable : Countable redis_key :=
  inj_countable'
    (fun k => match k with
              | blacklisted_token tok => inl tok
              | user_logout u => inr u
              end)
    (fun x => match x with
              | inl tok => blacklisted_token tok
              | inr u => user_logout u
              end)
    (fun k => match k with blacklisted_token _ | user_logout _ => eq_refl end).

(** The client's two commands.  Each takes the store and the instant of the
    call; either may raise. *)
Class RedisClient (R : Type) := {
  setex : R -> Z -> redis_key -> Z -> string -> result R;
  exists_ : R -> Z -> redis_key -> result Z
}.

(** ** services/token_service.py *)

Module TokenService.
Section TokenService.
Context {R : Type} `{RedisClient R}.

(** The instance's attributes.  [_blacklisted_tokens] is only created, and
    only used, when there is no client. *)
Record t := {
  redis_client : option R;
  _blacklisted_tokens : gset token
}.

(** [TokenService()]: [from_url] is the client the configured URL leads
    to. *)
Definition init (settings : Settings) (from_url : string -> R) : t :=
  match REDIS_URL settings with
  | Some url =>
      if bool_decide (url = "") then
        {| redis_client := None; _blacklisted_tokens := ∅ |}
      else
        {| redis_client := Some (from_url url); _blacklisted_tokens := ∅ |}
  | None => {| redis_client := None; _blacklisted_tokens := ∅ |}
  end.

Definition or_24_hours (expiration : option Z) : Z :=
  if utils_jwt.truthy expiration then default 0 expiration
  else datetime.hours 24.

(** [blacklist_token(token, expiration)]. *)
Definition blacklist_token (self : t) (now : Z) (tok : token)
    (expiration : option Z) : result (bool * t) :=
  try_except
    (match redis_client self with
     | Some r =>
         let expiration := or_24_hours expiration in
         r' ← setex r now (blacklisted_token tok) expiration "true";
         Ok (true, {| redis_client := Some r';
                      _blacklisted_tokens := _blacklisted_tokens self |})
     | None =>
         let expiration := or_24_hours expiration in
         Ok (true, {| redis_client := None;
                      _blacklisted_tokens :=
                        {[ tok ]} ∪ _blacklisted_tokens self |})
     end)
    isinstance_Exception
    (fun _ => Ok (false, self)).

(** [is_token_blacklisted(token)]. *)
Definition is_token_blacklisted (self : t) (now : Z) (tok : token)
    : result bool :=
  try_except
    (match redis_client self with
     | Some r =>
         n ← exists_ r now (blacklisted_token tok);
         Ok (bool_decide (n > 0))
     | None => Ok (bool_decide (tok ∈ _blacklisted_tokens self))
     end)
    isinstance_Exception
    (fun _ => Ok false).

(** [blacklist_user_tokens(user_id, expiration)]. *)
Definition blacklist_user_tokens (self : t) (now : Z) (user_id : string)
    (expiration : option Z) : result (bool * t) :=
  try_except
    (match redis_client self with
     | Some r =>
         r' ← setex r now (user_logout user_id)
                (if utils_jwt.truthy expiration then default 0 expiration
                 else datetime.hours 24)
                "true";
         Ok (true, {| redis_client := Some r';
                      _blacklisted_tokens := _blacklisted_tokens self |})
     | None => Ok (true, self)
     end)
    isinstance_Exception
    (fun _ => Ok (false, self)).

(** [is_user_logged_out(user_id)]. *)
Definition is_user_logged_out (self : t) (now : Z) (user_id : string)
    : result bool :=
  try_except
    (match redis_client self with
     | Some r =>
         n ← exists_ r now (user_logout user_id);
         Ok (bool_decide (n > 0))
     | None => Ok false
     end)
    isinstance_Exception
    (fun _ => Ok false).

End TokenService.
Arguments t R : clear implicits.
End TokenService.

(** ** services/task_service.py *)

Module TaskService.

(** [select(Task).where(Task.id == task_id, Task.user_id == user_id)] then
    [.first()]. *)
Definition get_task_by_id (db : Session) (task_id user_id : string)
    : option Task.t :=
  List.find
    (fun t => bool_decide (Task.id t = task_id)
              && bool_decide (Task.user_id t = user_id))
    (tasks db).

(** The [setattr] loop over [task_update.dict(exclude_unset=True)].  The
    columns [title], [priority] and [completed] are not nullable: a [null]
    written to one of them is refused when the session commits, which is
    the [None] here. *)
Definition apply_update (task_update : TaskUpdate.t) (task : Task.t)
    : option Task.t :=
  title ← match TaskUpdate.title task_update with
          | None => Some (Task.title task)
          | Some v => v
          end;
  priority ← match TaskUpdate.priority task_update with
             | None => Some (Task.priority task)
             | Some v => v
             end;
  completed ← match TaskUpdate.completed task_update with
              | None => Some (Task.completed task)
              | Some v => v
              end;
  Some {| Task.id := Task.id task;
          Task.title := title;
          Task.description :=
            default (Task.description task)
                    (TaskUpdate.description task_update);
          Task.due_date :=
            default (Task.due_date task) (TaskUpdate.due_date task_update);
          Task.priority := priority;
          Task.completed := completed;
          Task.user_id := Task.user_id task;
          Task.created_at := Task.created_at task;
          Task.updated_at := Task.updated_at task |}.

Definition set_updated_at (now : Z) (task : Task.t) : Task.t :=
  {| Task.id := Task.id task;
     Task.title := Task.title task;
     Task.description := Task.description task;
     Task.due_date := Task.due_date task;
     Task.priority := Task.priority task;
     Task.completed := Task.completed task;
     Task.user_id := Task.user_id task;
     Task.created_at := Task.created_at task;
     Task.updated_at := now |}.

(** [db.add(task); db.commit()] for a loaded row: the row with the task's
    primary key is rewritten. *)
Definition commit_task (db : Session) (task : Task.t) : Session :=
  {| users := users db;
     tasks := List.map
                (fun r => if bool_decide (Task.id r = Task.id task)
                          then task else r)
                (tasks db) |}.

(** [db.delete(task); db.commit()]. *)
Definition commit_delete (db : Session) (task : Task.t) : Session :=
  {| users := users db;
     tasks := List.filter
                (fun r => negb (bool_decide (Task.id r = Task.id task)))
                (tasks db) |}.

(** [TaskService.update_task(db, task_id, task_update, user_id)] at instant
    [now]. *)
Definition update_task (db : Session) (now : Z) (task_id : string)
    (task_update : TaskUpdate.t) (user_id : string)
    : result (option Task.t * Session) :=
  match get_task_by_id db task_id user_id with
  | None => Ok (None, db)
  | Some task =>
      match apply_update task_update task with
      | None => Raise IntegrityError
      | Some task =>
          let task := set_updated_at now task in
          Ok (Some task, commit_task db task)
      end
  end.

(** [TaskService.delete_task(db, task_id, user_id)]. *)
Definition delete_task (db : Session) (task_id user_id : string)
    : bool * Session :=
  match get_task_by_id db task_id user_id with
  | None => (false, db)
  | Some task => (true, commit_delete db task)
  end.

(** [db.add(task); db.commit()] for a new row.  The table has a primary key
    on [id] and a foreign key from [user_id] to the users; a row that breaks
    either is refused.  (Strings are taken to fit their columns.) *)
Definition insert_task (db : Session) (task : Task.t) : result Session :=
  if existsb (fun r => bool_decide (Task.id r = Task.id task)) (tasks db)
  then Raise IntegrityError
  else if negb (existsb (fun u => bool_decide (User.id u = Task.user_id task))
                        (users db))
  then Raise IntegrityError
  else Ok {| users := users db; tasks := tasks db ++ [task] |}.

(** [TaskService.create_task(db, task_create, user_id)].  [new_id] is the
    identifier [uuid4] draws, [created_at] and [updated_at] the instants the
    two default factories read. *)
Definition create_task (db : Session) (task_create : TaskCreate.t)
    (user_id new_id : string) (created_at updated_at : Z)
    : result (Task.t * Session) :=
  let task :=
    {| Task.id := new_id;
       Task.title := TaskCreate.title task_create;
       Task.description := TaskCreate.description task_create;
       Task.due_date := TaskCreate.due_date task_create;
       Task.priority := TaskCreate.priority task_create;
       Task.completed := TaskCreate.completed task_create;
       Task.user_id := user_id;
       Task.created_at := created_at;
       Task.updated_at := updated_at |} in
  db ← insert_task db task;
  Ok (task, db).

(** The [setattr] loop over [task_patch.dict(exclude_unset=True)]; a [null]
    written to [completed] is refused when the session commits. *)
Definition apply_patch (task_patch : TaskPatch.t) (task : Task.t)
    : option Task.t :=
  completed ← match TaskPatch.completed task_patch with
              | None => Some (Task.completed task)
              | Some v => v
              end;
  Some {| Task.id := Task.id task;
          Task.title := Task.title task;
          Task.description := Task.description task;
          Task.due_date := Task.due_date task;
          Task.priority := Task.priority task;
          Task.completed := completed;
          Task.user_id := Task.user_id task;
          Task.created_at := Task.created_at task;
          Task.updated_at := Task.updated_at task |}.

(** [TaskService.patch_task(db, task_id, task_patch, user_id)] at instant
    [now]. *)
Definition patch_task (db : Session) (now : Z) (task_id : string)
    (task_patch : TaskPatch.t) (user_id : string)
    : result (option Task.t * Session) :=
  match get_task_by_id db task_id user_id with
  | None => Ok (None, db)
  | Some task =>
      match apply_patch task_patch task with
      | None => Raise IntegrityError
      | Some task =>
          let task := set_updated_at now task in
          Ok (Some task, commit_task db task)
      end
  end.

(** [TaskService.mark_task_completed(db, task_id, user_id)]. *)
Definition mark_task_completed (db : Session) (now : Z)
    (task_id user_id : string) : result (option Task.t * Session) :=
  patch_task db now task_id {| TaskPatch.completed := Some (Some true) |}
             user_id.

(** [TaskService.mark_task_uncompleted(db, task_id, user_id)]. *)
Definition mark_task_uncompleted (db : Session) (now : Z)
    (task_id user_id : string) : result (option Task.t * Session) :=
  patch_task db now task_id {| TaskPatch.completed := Some (Some false) |}
             user_id.

Record TaskStats := {
  total : Z;
  completed : Z;
  pending : Z;
  overdue : Z
}.

(** [Task.due_date < datetime.utcnow()] as the query evaluates it: a task
    without a due date is not selected. *)
Definition due_before (now : Z) (t : Task.t) : bool :=
  match Task.due_date t with
  | Some due => due <? now
  | None => false
  end.

(** [TaskService.get_task_stats(db, user_id)] at instant [now]. *)
Definition get_task_stats (db : Session) (now : Z) (user_id : string)
    : TaskStats :=
  let total_tasks :=
    Z.of_nat (length (List.filter
      (fun t => bool_decide (Task.user_id t = user_id)) (tasks db))) in
  let completed_tasks :=
    Z.of_nat (length (List.filter
      (fun t => bool_decide (Task.user_id t = user_id)
                && bool_decide (Task.completed t = true)) (tasks db))) in
  let pending_tasks := total_tasks - completed_tasks in
  let overdue_tasks :=
    Z.of_nat (length (List.filter
      (fun t => bool_decide (Task.user_id t = user_id)
                && bool_decide (Task.completed t = false)
                && due_before now t) (tasks db))) in
  {| total := total_tasks; completed := completed_tasks;
     pending := pending_tasks; overdue := overdue_tasks |}.

End TaskService.

(** ** api/tasks.py *)

Module api_tasks.

Definition not_found : exn :=
  HTTPException HTTP_404_NOT_FOUND "Task not found or access denied" [].

(** [GET /tasks/{task_id}]. *)
Definition get_task (db : Session) (task_id : string)
    (current_user : User.t) : result Task.t :=
  match TaskService.get_task_by_id db task_id (User.id current_user) with
  | None => Raise not_found
  | Some task => Ok task
  end.

(** [PUT /tasks/{task_id}]. *)
Definition update_task (db : Session) (now : Z) (task_id : string)
    (task_update : TaskUpdate.t) (current_user : User.t)
    : result (Task.t * Session) :=
  r ← TaskService.update_task db now task_id task_update
        (User.id current_user);
  match r with
  | (None, _) => Raise not_found
  | (Some task, db') => Ok (task, db')
  end.

(** [DELETE /tasks/{task_id}]. *)
Definition delete_task (db : Session) (task_id : string)
    (current_user : User.t) : result (string * Session) :=
  let '(success, db') :=
    TaskService.delete_task db task_id (User.id current_user) in
  if negb success then Raise not_found
  else Ok ("Task deleted successfully", db').

(** [POST /tasks/].  (The test of a task that was not created is left out:
    the service returns the task or raises.) *)
Definition create_task (db : Session) (task_create : TaskCreate.t)
    (current_user : User.t) (new_id : string) (created_at updated_at : Z)
    : result (Task.t * Session) :=
  TaskService.create_task db task_create (User.id current_user) new_id
                          created_at updated_at.

(** [PATCH /tasks/{task_id}], and [PATCH /tasks/{task_id}/complete] which
    has the same body. *)
Definition patch_task (db : Session) (now : Z) (task_id : string)
    (task_patch : TaskPatch.t) (current_user : User.t)
    : result (Task.t * Session) :=
  r ← TaskService.patch_task db now task_id task_patch (User.id current_user);
  match r with
  | (None, _) => Raise not_found
  | (Some task, db') => Ok (task, db')
  end.

Definition complete_task := patch_task.

End api_tasks.

(** ** utils/authz.py *)

Module authz.

(** [verify_task_ownership(db, task_id, user_id)]. *)
Definition verify_task_ownership (db : Session) (task_id user_id : string)
    : bool :=
  let task :=
    List.find
      (fun t => bool_decide (Task.id t = task_id)
                && bool_decide (Task.user_id t = user_id))
      (tasks db) in
  bool_decide (task <> None).

(** [verify_user_permission(db, resource_owner_id, current_user_id,
    permission)]. *)
Definition verify_user_permission (db : Session)
    (resource_owner_id current_user_id permission : string) : bool :=
  bool_decide (resource_owner_id = current_user_id).

Definition can_read_resource (owner_id current_user_id : string) : bool :=
  bool_decide (owner_id = current_user_id).
Definition can_modify_resource (owner_id current_user_id : string) : bool :=
  bool_decide (owner_id = current_user_id).
Definition can_delete_resource (owner_id current_user_id : string) : bool :=
  bool_decide (owner_id = current_user_id).

End authz.

(** ** api/deps.py *)

Module deps.
Section deps.
Context `{Hmac}.
Variable settings : Settings.

Definition unauthorized (detail : string) : exn :=
  HTTPException HTTP_401_UNAUTHORIZED detail bearer_headers.

(** [get_current_user(credentials, db)] at instant [now]; [tok] is
    [credentials.credentials]. *)
Definition get_current_user (db : Session) (now : Z) (tok : token)
    : result User.t :=
  try_except
    (token_data ← utils_jwt.verify_access_token settings now tok;
     let user :=
       UserService.get_user_by_id db (TokenData.user_id token_data) in
     match user with
     | None => Raise (unauthorized "User not found")
     | Some user =>
         if negb (User.is_active user) then
           Raise (unauthorized "Inactive user")
         else Ok user
     end)
    isinstance_Exception
    (fun _ => Raise (unauthorized "Could not validate credentials")).

(** [get_current_active_user(current_user)]. *)
Definition get_current_active_user (current_user : User.t) : result User.t :=
  if negb (User.is_active current_user) then
    Raise (HTTPException HTTP_400_BAD_REQUEST "Inactive user" [])
  else Ok current_user.

End deps.
End deps.

(** ** api/auth.py *)

(** A record written to the application's log. *)
Inductive LogRecord :=
| LogWarning (message : string)
| LogError (message : string).

Module LogoutResponse.
Record t := {
  message : string;
  user_id : string
}.
End LogoutResponse.

Module api_auth.
Section api_auth.
Context `{Hmac} `{Bcrypt} {R : Type} `{RedisClient R}.
Variable settings : Settings.

(** [POST /auth/login]. *)
Definition login_user (db : Session) (now : Z) (login_data : LoginRequest.t)
    : result AuthResponse.t :=
  if negb (validation.validate_email_format (LoginRequest.email login_data))
  then Raise (HTTPException HTTP_400_BAD_REQUEST "Invalid email format" [])
  else
    r ← UserService.authenticate_user settings db now login_data;
    match r with
    | None =>
        Raise (HTTPException HTTP_401_UNAUTHORIZED
                             "Incorrect email or password" bearer_headers)
    | Some r => Ok r
    end.

(** [POST /auth/logout], for the principal [current_user] the guard
    resolved; [tok] is [credentials.credentials] and [token_service] the
    module's instance.  The result carries the instance after the call and
    the records the handler logs: the module has no logger, and the
    [except] branch is [pass]. *)
Definition logout_user (token_service : TokenService.t R) (now : Z)
    (tok : token) (current_user : User.t)
    : result (LogoutResponse.t * TokenService.t R * list LogRecord) :=
  token_service ←
    try_except
      (r ← TokenService.blacklist_token token_service now tok None;
       Ok (snd r))
      isinstance_Exception
      (fun _ => Ok token_service);
  Ok ({| LogoutResponse.message := "Successfully logged out";
         LogoutResponse.user_id := User.id current_user |},
      token_service, []).

(** [isinstance(e, HTTPException)]. *)
Definition isinstance_HTTPException (e : exn) : bool :=
  match e with HTTPException _ _ _ => true | _ => false end.

(** [POST /auth/register]. *)
Definition register_user `{BcryptHasher} (db : Session)
    (user_data : RegisterRequest.t) (new_id salt : string)
    (created_at updated_at now : Z) : result (AuthResponse.t * Session) :=
  if negb (validation.validate_email_format (RegisterRequest.email user_data))
  then Raise (HTTPException HTTP_400_BAD_REQUEST "Invalid email format" [])
  else
    r ← UserService.register_user settings db user_data new_id salt
          created_at updated_at now;
    match r with
    | (None, _) => Raise (HTTPException 409 "Email already exists" [])
    | (Some r, db') => Ok (r, db')
    end.

(** [POST /auth/refresh]: an [HTTPException] passes through, any other
    exception becomes one. *)
Definition refresh_access_token_endpoint (now : Z) (refresh_token : token)
    : result RefreshTokenResponse.t :=
  try_except
    (new_access_token ←
       utils_jwt.refresh_access_token settings now refresh_token;
     Ok {| RefreshTokenResponse.access_token := new_access_token;
           RefreshTokenResponse.token_type := "bearer";
           RefreshTokenResponse.expires_in := 3600 |})
    isinstance_Exception
    (fun e => if isinstance_HTTPException e then Raise e
              else Raise (HTTPException HTTP_401_UNAUTHORIZED
                                        "Could not refresh token" [])).

End api_auth.
End api_auth.

(** ** Doubles of the external collaborators *)

(** Modelled from the spec: the revocation backing store, "a fast external
    key/expiry store" whose entries self-expire, with the two commands the
    service uses ([set_with_ttl], [exists]).  A store that cannot be reached
    raises on every command. *)
Module FakeRedis.

Record t := {
  reachable : bool;
  entries : gmap redis_key Z  (* key to the instant its entry expires *)
}.

(** [SETEX key seconds value]: the client sends the duration in whole
    seconds, and the server refuses a duration that is not positive. *)
Definition setex (r : t) (now : Z) (key : redis_key) (ttl : Z)
    (value : string) : result t :=
  if negb (reachable r) then Raise RedisError
  else
    let seconds := Z.quot ttl datetime.second in
    if seconds <=? 0 then Raise RedisError
    else Ok {| reachable := reachable r;
               entries := <[key := now + seconds * datetime.second]>
                            (entries r) |}.

(** [EXISTS key]: the number of live entries under the key. *)
Definition exists_ (r : t) (now : Z) (key : redis_key) : result Z :=
  if negb (reachable r) then Raise RedisError
  else
    match entries r !! key with
    | Some expires => Ok (if now <? expires then 1 else 0)
    | None => Ok 0
    end.

Definition client : RedisClient t :=
  Build_RedisClient t setex exists_.


End FakeRedis.

(** A keyed hash for running examples: the tag of a message is the key. *)
Definition stub_hmac : Hmac := fun key _ => key.

(** A bcrypt handler for running examples: a hash is the identifier and cost
    ["$2b$12$"] followed by the digest, and the digest of a secret is the
    secret. *)
Module StubBcrypt.

Definition from_string (hash : string) : option bcrypt_hash :=
  if CryptContext.startswith hash "$2b$12$" then
    Some {| ident := "$2b$"; rounds := 12; salt := "";
            checksum := Some (String.substring 7 (String.length hash - 7)
                                               hash) |}
  else None.

Definition handler : Bcrypt :=
  {| bcrypt_from_string := from_string;
     bcrypt_calc_checksum := fun secret _ => Ok secret |}.

End StubBcrypt.

(** ** Vocabulary of the properties *)

Definition identity_claims (u e : string) : gmap string json :=
  <["email" := JStr e]> (<["sub" := JStr u]> ∅).

(** The expiry a token carries, in seconds since the epoch. *)
Definition token_exp (tok : token) : option Z :=
  match tok with
  | Jws _ payload _ =>
      match payload !! "exp" with
      | Some (JNum n) => Some n
      | _ => None
      end
  | NotAJws _ => None
  end.

Definition token_type (tok : token) : json :=
  match tok with
  | Jws _ payload _ => dict_get payload "type"
  | NotAJws _ => JNull
  end.

(** A stored hash is well formed when the context identifies it, the handler
    parses it and it carries a digest. *)
Definition well_formed_hash `{Bcrypt} (hash : string) : bool :=
  CryptContext.bcrypt_identify hash
  && match bcrypt_from_string hash with
     | Some h => bool_decide (is_Some (checksum h))
     | None => false
     end.

Definition authentication_failed : exn :=
  HTTPException HTTP_401_UNAUTHORIZED "Incorrect email or password"
                bearer_headers.

(** The three ways a login with a well-formed email fails. *)
Inductive login_failure `{Bcrypt} (db : Session)
    (login_data : LoginRequest.t) : Prop :=
| no_such_user :
    DatabaseService.get_user_by_email db (LoginRequest.email login_data)
    = None ->
    login_failure db login_data
| wrong_password user :
    DatabaseService.get_user_by_email db (LoginRequest.email login_data)
    = Some user ->
    password.verify_password (LoginRequest.password login_data)
                             (User.hashed_password user) = Ok false ->
    login_failure db login_data
| inactive_user user :
    DatabaseService.get_user_by_email db (LoginRequest.email login_data)
    = Some user ->
    password.verify_password (LoginRequest.password login_data)
                             (User.hashed_password user) = Ok true ->
    User.is_active user = false ->
    login_failure db login_data.

(** A task with the given id that the given user owns is in the table. *)
Definition owned_task_exists (db : Session) (task_id user_id : string)
    : Prop :=
  exists task, task ∈ tasks db
               /\ Task.id task = task_id /\ Task.user_id task = user_id.

(** ** Example data *)

(** Example data: two accounts with the password ["Secur3Pass"], the second
    one deactivated. *)
Module example.

Definition settings : Settings :=
  {| BETTER_AUTH_SECRET := "0123456789abcdef0123456789abcdef";
     JWT_EXPIRATION_HOURS := 24;
     REDIS_URL := None |}.

Definition alice : User.t :=
  {| User.id := "11111111-1111-4111-8111-111111111111";
     User.email := "a@x.com";
     User.hashed_password := "$2b$12$Secur3Pass";
     User.is_active := true;
     User.created_at := 0;
     User.updated_at := 0 |}.

Definition bob : User.t :=
  {| User.id := "22222222-2222-4222-8222-222222222222";
     User.email := "b@x.com";
     User.hashed_password := "$2b$12$Secur3Pass";
     User.is_active := false;
     User.created_at := 0;
     User.updated_at := 0 |}.

Definition alice_task : Task.t :=
  {| Task.id := "aaaaaaaa-aaaa-4aaa-8aaa-aaaaaaaaaaaa";
     Task.title := "Write report";
     Task.description := None;
     Task.due_date := None;
     Task.priority := MEDIUM;
     Task.completed := false;
     Task.user_id := User.id alice;
     Task.created_at := 0;
     Task.updated_at := 0 |}.

Definition db : Session :=
  {| users := [alice; bob]; tasks := [alice_task] |}.

Definition login (email password : string) : LoginRequest.t :=
  {| LoginRequest.email := email; LoginRequest.password := password |}.

(** A password of 4097 characters, ["a" * 4097]. *)
Definition oversize_password : string :=
  string_of_list_ascii (replicate 4097 "a"%char).

Definition no_update : TaskUpdate.t :=
  {| TaskUpdate.title := None;
     TaskUpdate.description := None;
     TaskUpdate.due_date := None;
     TaskUpdate.priority := None;
     TaskUpdate.completed := Some (Some true) |}.

End example.

(** A store that held a revocation entry for the token and one for the user
    when the connection was lost. *)
Module example_outage.

Definition tok : token :=
  @utils_jwt.create_access_token stub_hmac example.settings 0
    (identity_claims (User.id example.alice) (User.email example.alice))
    None.

Definition store_up : FakeRedis.t :=
  {| FakeRedis.reachable := true;
     FakeRedis.entries :=
       <[user_logout (User.id example.alice) := datetime.hours 24]>
         (<[blacklisted_token tok := datetime.hours 24]> ∅) |}.

Definition service_up : TokenService.t FakeRedis.t :=
  {| TokenService.redis_client := Some store_up;
     TokenService._blacklisted_tokens := ∅ |}.



End example_outage.

Module example_tokens.

Definition claims : gmap string json :=
  identity_claims (User.id example.alice) (User.email example.alice).

(** Issued at the epoch with the default lifetime of a day. *)
Definition access : token :=
  @utils_jwt.create_access_token stub_hmac example.settings 0 claims None.

(** Issued at the epoch with a lifetime of minus one second. *)
Definition expired : token :=
  @utils_jwt.create_access_token stub_hmac example.settings 0 claims
    (Some (- datetime.second)).

End example_tokens.

(** ** Vocabulary and doubles of the further properties *)

Definition invalid_token_type : exn :=
  HTTPException HTTP_401_UNAUTHORIZED "Invalid token type" bearer_headers.

Definition could_not_validate : exn :=
  deps.unauthorized "Could not validate credentials".

Definition email_already_exists : exn :=
  HTTPException 409 "Email already exists" [].

(** The four requirements of the password policy. *)
Definition meets_policy `{Unicode} (password : string) : bool :=
  (8 <=? Z.of_nat (str.len password))
  && re.search_cls (re.between "A" "Z") password
  && re.search_cls (re.between "a" "z") password
  && re.search_cls re.digit password.

(** A character database for running examples: the decimal digits are the
    ASCII digits and the Arabic-Indic digits, U+0660 to U+0669. *)
Definition stub_unicode : Unicode :=
  fun c => ((48 <=? c) && (c <=? 57) || (1632 <=? c) && (c <=? 1641))%N.

(** A hasher for running examples, the counterpart of [StubBcrypt]: whatever
    the salt, the hash of a secret is ["$2b$12$"] followed by the secret. *)
Definition stub_hasher : BcryptHasher :=
  fun _ secret => Ok ("$2b$12$" +:+ secret).

(** The primary keys of the two tables are unique. *)
Definition task_ids_unique (db : Session) : Prop :=
  NoDup (Task.id <$> tasks db).
Definition user_ids_unique (db : Session) : Prop :=
  NoDup (User.id <$> users db).
(** The unique index on the users' emails. *)
Definition user_emails_unique (db : Session) : Prop :=
  NoDup (User.email <$> users db).

(** The rows of the tasks' table that belong to other users than
    [user_id]. *)
Definition other_users_tasks (db : Session) (user_id : string)
    : list Task.t :=
  List.filter (fun t => negb (bool_decide (Task.user_id t = user_id)))
              (tasks db).

(** The strings a pattern denotes. *)
Inductive matches : re.regex -> string -> Prop :=
| matches_eps : matches re.Eps EmptyString
| matches_cls p c : p c = true -> matches (re.Cls p) (String c EmptyString)
| matches_cat r1 r2 s1 s2 :
    matches r1 s1 -> matches r2 s2 -> matches (re.Cat r1 r2) (s1 +:+ s2)
| matches_alt_l r1 r2 s : matches r1 s -> matches (re.Alt r1 r2) s
| matches_alt_r r1 r2 s : matches r2 s -> matches (re.Alt r1 r2) s
| matches_star_nil r : matches (re.Star r) EmptyString
| matches_star_cons r s1 s2 :
    matches r s1 -> matches (re.Star r) s2 ->
    matches (re.Star r) (s1 +:+ s2).

(** Every character of the string is in the class. *)
Fixpoint all_chars (p : ascii -> bool) (s : string) : bool :=
  match s with
  | EmptyString => true
  | String c s' => p c && all_chars p s'
  end.

(** The characters [sanitize_input] replaces. *)
Definition dangerous_chars : list ascii :=
  ["<"; ">"; "034"; "'"; "/"; "\"]%char.

(** [c in s]. *)
Fixpoint contains (c : ascii) (s : string) : bool :=
  match s with
  | EmptyString => false
  | String d s' => bool_decide (d = c) || contains c s'
  end.

(** Further example data: a third person who registers, and runs of the
    writes on the example tables. *)
Module example2.

Definition carol_request : RegisterRequest.t :=
  {| RegisterRequest.email := "c@x.com";
     RegisterRequest.password := "Secur3Pass";
     RegisterRequest.confirm_password := "Secur3Pass" |}.

Definition carol_id : string := "33333333-3333-4333-8333-333333333333".

Definition duplicate_request : RegisterRequest.t :=
  {| RegisterRequest.email := "a@x.com";
     RegisterRequest.password := "An0therPass";
     RegisterRequest.confirm_password := "An0therPass" |}.

(** The value of a call that returns. *)
Definition value {A} (otherwise : A) (r : result A) : A :=
  match r with Ok a => a | Raise _ => otherwise end.

(** A refresh token for alice, and a signed token without a subject. *)
Definition refresh : token :=
  @utils_jwt.create_refresh_token stub_hmac example.settings 0
    example_tokens.claims None.

Definition no_subject : token :=
  @jwt.encode stub_hmac (<["email" := JStr "a@x.com"]> ∅)
    (BETTER_AUTH_SECRET example.settings) "HS256".

Definition alice_data : TokenData.t :=
  {| TokenData.user_id := User.id example.alice;
     TokenData.email := User.email example.alice;
     TokenData.exp := None |}.

(** Alice marks her task completed at instant 1. *)
Definition updated : Task.t * Session :=
  value (example.alice_task, example.db)
    (api_tasks.update_task example.db 1 (Task.id example.alice_task)
       example.no_update example.alice).

(** Alice deletes her task. *)
Definition deleted : string * Session :=
  value ("", example.db)
    (api_tasks.delete_task example.db (Task.id example.alice_task)
       example.alice).

Definition shopping : TaskCreate.t :=
  {| TaskCreate.title := "Buy milk";
     TaskCreate.description := None;
     TaskCreate.due_date := Some 5;
     TaskCreate.priority := LOW;
     TaskCreate.completed := false |}.

Definition shopping_id : string := "bbbbbbbb-bbbb-4bbb-8bbb-bbbbbbbbbbbb".

(** Alice creates a second task. *)
Definition created : Task.t * Session :=
  value (example.alice_task, example.db)
    (api_tasks.create_task example.db shopping example.alice shopping_id
       2 2).

(** The example tables with one more task, of the other user. *)
Definition db_with_bob_task : Session :=
  {| users := users example.db;
     tasks := tasks example.db
              ++ [ {| Task.id := shopping_id;
                      Task.title := "Buy milk";
                      Task.description := None;
                      Task.due_date := Some 5;
                      Task.priority := LOW;
                      Task.completed := false;
                      Task.user_id := User.id example.bob;
                      Task.created_at := 2;
                      Task.updated_at := 2 |} ] |}.

Definition in_memory : TokenService.t FakeRedis.t :=
  {| TokenService.redis_client := None;
     TokenService._blacklisted_tokens := ∅ |}.

End example2.

(** ** Properties *)

(** *** Tokens: issue and verification *)

Section token_properties.
Context `{Hmac}.
Variable settings : Settings.

Lemma timegm_lower (t : Z) : t - datetime.second < datetime.timegm t * datetime.second.
Proof.
  unfold datetime.timegm, datetime.second.
  pose proof (Z.div_mod t 1000000 ltac:(lia)).
  pose proof (Z.mod_pos_bound t 1000000 ltac:(lia)). lia.
Qed.

Lemma timegm_upper (t : Z) : datetime.timegm t * datetime.second <= t.
Proof.
  unfold datetime.timegm, datetime.second.
  pose proof (Z.div_mod t 1000000 ltac:(lia)).
  pose proof (Z.mod_pos_bound t 1000000 ltac:(lia)). lia.
Qed.

(** What the decoder answers on a token the encoder made with the same
    key: only the expiry is left to check. *)
Lemma decode_encode (now : Z) (payload : gmap string json) (key : string) :
  jwt.decode now (jwt.encode payload key "HS256") key ["HS256"] =
  match payload !! "exp" with
  | None => Ok payload
  | Some (JNum exp) =>
      if bool_decide (exp * datetime.second <= now) then
        Raise (PyJWTError ExpiredSignatureError)
      else Ok payload
  | Some _ => Raise (PyJWTError DecodeError)
  end.
Proof.
  unfold jwt.decode, jwt.encode.
  rewrite (bool_decide_eq_true_2 ("HS256" ∈ ["HS256"])) by set_solver.
  rewrite bool_decide_eq_true_2 by reflexivity.
  reflexivity.
Qed.

(** A token that fails to decode fails every verification: the decoder's
    exception is not a [jose.JWTError], so no handler applies. *)
Lemma verify_token_decode_error now tok cex e :
  jwt.decode now tok (BETTER_AUTH_SECRET settings) ["HS256"] = Raise e ->
  isinstance_JWTError e = false ->
  utils_jwt.verify_token settings now tok cex = Raise e.
Proof.
  intros Hd He. unfold utils_jwt.verify_token.
  rewrite Hd. simpl. rewrite He. reflexivity.
Qed.

Lemma decode_raises_pyjwt now tok key algs e :
  jwt.decode now tok key algs = Raise e -> exists k, e = PyJWTError k.
Proof.
  unfold jwt.decode. intros Hd.
  destruct tok as [raw | alg payload sig]; [ inversion Hd; eauto | ].
  repeat case_match; inversion Hd; eauto.
Qed.

Lemma decode_expired now alg payload sig key algs x :
  payload !! "exp" = Some (JNum x) ->
  x * datetime.second <= now ->
  exists k, jwt.decode now (Jws alg payload sig) key algs
            = Raise (PyJWTError k).
Proof.
  intros Hx Hle. unfold jwt.decode. rewrite Hx.
  rewrite (bool_decide_eq_true_2 (x * datetime.second <= now)) by done.
  repeat case_match; eauto.
Qed.

Lemma token_exp_access utcnow data expires_delta :
  token_exp (utils_jwt.create_access_token settings utcnow data expires_delta)
  = Some (datetime.timegm
            (if utils_jwt.truthy expires_delta
             then utcnow + default 0 expires_delta
             else utcnow + datetime.hours (JWT_EXPIRATION_HOURS settings))).
Proof.
  unfold utils_jwt.create_access_token, jwt.encode, token_exp.
  by rewrite lookup_insert_eq.
Qed.

Lemma verify_token_fresh now payload u e cex :
  payload !! "sub" = Some (JStr u) ->
  payload !! "email" = Some (JStr e) ->
  jwt.decode now (jwt.encode payload (BETTER_AUTH_SECRET settings) "HS256")
             (BETTER_AUTH_SECRET settings) ["HS256"] = Ok payload ->
  utils_jwt.verify_token settings now
    (jwt.encode payload (BETTER_AUTH_SECRET settings) "HS256") cex
  = Ok {| TokenData.user_id := u; TokenData.email := e;
          TokenData.exp := None |}.
Proof.
  intros Hu He Hd. unfold utils_jwt.verify_token.
  rewrite Hd. simpl. unfold dict_get. rewrite Hu, He. reflexivity.
Qed.

End token_properties.

Section token_claims.
Context `{Hmac}.
Variable settings : Settings.

Lemma identity_claims_sub u e x :
  (<["exp" := x]> (identity_claims u e)) !! "sub" = Some (JStr u).
Proof.
  unfold identity_claims.
  rewrite lookup_insert_ne by done.
  rewrite lookup_insert_ne by done.
  apply lookup_insert_eq.
Qed.

Lemma identity_claims_email u e x :
  (<["exp" := x]> (identity_claims u e)) !! "email" = Some (JStr e).
Proof.
  unfold identity_claims.
  rewrite lookup_insert_ne by done.
  apply lookup_insert_eq.
Qed.

Lemma create_then_verify utcnow now u e expires_delta cex :
  now < datetime.timegm
          (if utils_jwt.truthy expires_delta
           then utcnow + default 0 expires_delta
           else utcnow + datetime.hours (JWT_EXPIRATION_HOURS settings))
        * datetime.second ->
  utils_jwt.verify_token settings now
    (utils_jwt.create_access_token settings utcnow (identity_claims u e)
                                   expires_delta) cex
  = Ok {| TokenData.user_id := u; TokenData.email := e;
          TokenData.exp := None |}.
Proof.
  intros Hlt. unfold utils_jwt.create_access_token.
  apply verify_token_fresh.
  - apply identity_claims_sub.
  - apply identity_claims_email.
  - rewrite decode_encode, lookup_insert_eq.
    by rewrite bool_decide_eq_false_2 by lia.
Qed.

(** With a positive configured lifetime, a token of the default lifetime
    verifies at the instant it is issued. *)
Lemma create_then_verify_default utcnow u e :
  0 < JWT_EXPIRATION_HOURS settings ->
  utils_jwt.verify_access_token settings utcnow
    (utils_jwt.create_access_token settings utcnow (identity_claims u e) None)
  = Ok {| TokenData.user_id := u; TokenData.email := e;
          TokenData.exp := None |}.
Proof.
  intros Hpos. apply create_then_verify. simpl.
  pose proof (timegm_lower
                (utcnow + datetime.hours (JWT_EXPIRATION_HOURS settings))).
  unfold datetime.hours, datetime.second in *. lia.
Qed.

(** C3.  Round trip: the token issued for the subject [u] and the email [e]
    verifies, at any instant before the expiry it carries, to claims with
    subject [u] and email [e]. *)
Theorem C3_access_token_round_trip utcnow now u e expires_delta x :
  let tok := utils_jwt.create_access_token settings utcnow
               (identity_claims u e) expires_delta in
  token_exp tok = Some x ->
  now < x * datetime.second ->
  utils_jwt.verify_access_token settings now tok
  = Ok {| TokenData.user_id := u; TokenData.email := e;
          TokenData.exp := None |}.
Proof.
  intros tok Hexp Hlt. subst tok.
  rewrite token_exp_access in Hexp. injection Hexp as <-.
  by apply create_then_verify.
Qed.

Lemma expired_token_raises now tok x cex :
  token_exp tok = Some x ->
  x * datetime.second <= now ->
  exists k, utils_jwt.verify_token settings now tok cex
            = Raise (PyJWTError k).
Proof.
  intros Hexp Hle.
  destruct tok as [raw | alg payload sig]; [ discriminate | ].
  simpl in Hexp.
  destruct (payload !! "exp") as [[ | s | n] | ] eqn:Hp; try discriminate.
  injection Hexp as ->.
  destruct (decode_expired now alg payload sig
              (BETTER_AUTH_SECRET settings) ["HS256"] x Hp Hle) as [k Hk].
  exists k. by apply verify_token_decode_error.
Qed.

(** C4.  A token whose expiry is not after the instant of verification
    fails verification, whichever exception the caller asked for: the
    instant of expiry itself is already too late, and no leeway is
    granted.  So a verification that succeeds happens strictly before the
    expiry. *)
Theorem C4_expired_token_fails now tok x cex :
  token_exp tok = Some x ->
  x * datetime.second <= now ->
  (exists err, utils_jwt.verify_token settings now tok cex = Raise err)
  /\ (exists err, utils_jwt.verify_access_token settings now tok = Raise err)
  /\ forall now' td,
       utils_jwt.verify_token settings now' tok cex = Ok td ->
       now' < x * datetime.second.
Proof.
  intros Hexp Hle. repeat split.
  - destruct (expired_token_raises now tok x cex Hexp Hle); eauto.
  - destruct (expired_token_raises now tok x None Hexp Hle); eauto.
  - intros now' td Hok.
    destruct (decide (x * datetime.second <= now')) as [Hle' | ]; [ | lia ].
    destruct (expired_token_raises now' tok x cex Hexp Hle'). congruence.
Qed.

(** The spec's example: a token issued with a negative lifetime is expired
    from the instant it is issued. *)
Lemma negative_ttl_token_fails utcnow now data d cex :
  d < 0 -> utcnow <= now ->
  exists k, utils_jwt.verify_token settings now
              (utils_jwt.create_access_token settings utcnow data (Some d))
              cex
            = Raise (PyJWTError k).
Proof.
  intros Hd Hnow.
  eapply expired_token_raises; [ apply token_exp_access | ].
  simpl. rewrite (proj2 (Z.eqb_neq d 0)) by lia. simpl.
  pose proof (timegm_upper (utcnow + d)). lia.
Qed.

(** C1.  Access verification has no check of the token's type: a refresh
    token issued for [u] and [e] passes [verify_access_token] and yields
    the claims of [u] and [e]. *)
Theorem C1_refresh_token_passes_access_verification utcnow u e :
  let tok := utils_jwt.create_refresh_token settings utcnow
               (identity_claims u e) None in
  token_type tok = JStr "refresh"
  /\ utils_jwt.verify_access_token settings utcnow tok
     = Ok {| TokenData.user_id := u; TokenData.email := e;
             TokenData.exp := None |}.
Proof.
  simpl. split.
  - unfold dict_get. by rewrite lookup_insert_eq.
  - unfold utils_jwt.verify_access_token, utils_jwt.create_refresh_token.
    simpl. apply verify_token_fresh.
    + rewrite lookup_insert_ne by done. apply identity_claims_sub.
    + rewrite lookup_insert_ne by done. apply identity_claims_email.
    + rewrite decode_encode.
      rewrite lookup_insert_ne by done. rewrite lookup_insert_eq.
      rewrite bool_decide_eq_false_2; [ done | ].
      pose proof (timegm_lower (utcnow + datetime.days 7)).
      unfold datetime.days, datetime.second in *. lia.
Qed.

(** The other direction of the type discrimination holds: refresh
    verification refuses every token whose type is not ["refresh"]. *)
Lemma verify_refresh_token_requires_type now tok :
  token_type tok <> JStr "refresh" ->
  exists e, utils_jwt.verify_refresh_token settings now tok = Raise e.
Proof.
  intros Hty. unfold utils_jwt.verify_refresh_token.
  destruct (jwt.decode now tok (BETTER_AUTH_SECRET settings) ["HS256"])
    as [payload | e] eqn:Hd.
  - assert (payload = match tok with Jws _ p _ => p | _ => ∅ end) as ->.
    { unfold jwt.decode in Hd. destruct tok; [ discriminate | ].
      repeat case_match; congruence. }
    destruct tok as [raw | alg p sig]; [ discriminate | ].
    simpl in *. rewrite bool_decide_eq_false_2 by done. simpl. eauto.
  - simpl. destruct (isinstance_JWTError e); eauto.
Qed.

(** An access token, which has no type entry, is such a token. *)
Lemma access_token_fails_refresh_verification utcnow now u e expires_delta :
  exists err,
    utils_jwt.verify_refresh_token settings now
      (utils_jwt.create_access_token settings utcnow (identity_claims u e)
                                     expires_delta)
    = Raise err.
Proof.
  apply verify_refresh_token_requires_type.
  simpl. unfold dict_get, identity_claims.
  rewrite !lookup_insert_ne by done. rewrite lookup_empty. done.
Qed.

End token_claims.

(** *** Passwords and login *)


Section password_claims.
Context `{Bcrypt}.

Lemma verify_password_unidentified plain_password hashed_password :
  CryptContext.bcrypt_identify hashed_password = false ->
  password.verify_password plain_password hashed_password
  = Raise UnknownHashError.
Proof.
  unfold password.verify_password, CryptContext.verify. by intros ->.
Qed.

Lemma verify_password_oversize plain_password hashed_password :
  CryptContext.bcrypt_identify hashed_password = true ->
  CryptContext.MAX_PASSWORD_SIZE < Z.of_nat (str.len plain_password) ->
  password.verify_password plain_password hashed_password
  = Raise PasswordSizeError.
Proof.
  unfold password.verify_password, CryptContext.verify,
    CryptContext.bcrypt_verify, CryptContext.validate_secret.
  intros -> Hlen. by rewrite (proj2 (Z.ltb_lt _ _) Hlen).
Qed.

Lemma verify_password_malformed plain_password hashed_password :
  well_formed_hash hashed_password = false ->
  exists e,
    password.verify_password plain_password hashed_password = Raise e.
Proof.
  unfold well_formed_hash, password.verify_password, CryptContext.verify,
    CryptContext.bcrypt_verify.
  intros Hwf.
  destruct (CryptContext.bcrypt_identify hashed_password); simpl in Hwf;
    [ | by eauto ].
  destruct (CryptContext.validate_secret plain_password) as [[] | e];
    simpl; [ | by eauto ].
  destruct (bcrypt_from_string hashed_password) as [h | ]; [ | by eauto ].
  destruct (checksum h) as [chk | ]; [ | by eauto ].
  rewrite bool_decide_eq_true_2 in Hwf by eauto. discriminate.
Qed.

(** C7, as the code has it.  For every plaintext password and every stored
    hash that is malformed, [verify_password] does not return false: it
    raises, and for a hash that does not start as a bcrypt hash what it
    raises is the context's unknown-hash error, whatever the password is.
    The function's own docstring promises a boolean. *)
Theorem C7_malformed_hash_raises plain_password hashed_password :
  well_formed_hash hashed_password = false ->
  (exists e,
     password.verify_password plain_password hashed_password = Raise e)
  /\ password.verify_password plain_password hashed_password <> Ok false
  /\ (CryptContext.bcrypt_identify hashed_password = false ->
      password.verify_password plain_password hashed_password
      = Raise UnknownHashError).
Proof.
  intros Hwf.
  destruct (verify_password_malformed plain_password hashed_password Hwf)
    as (e & Hr).
  split; [ eauto | ].
  split; [ congruence | ].
  apply verify_password_unidentified.
Qed.

End password_claims.

Lemma C7_witness :
  @well_formed_hash StubBcrypt.handler "not-a-hash" = false
  /\ (exists e,
        @password.verify_password StubBcrypt.handler "Secret123" "not-a-hash"
        = Raise e)
  /\ @password.verify_password StubBcrypt.handler "Secret123" "not-a-hash"
     <> Ok false
  /\ (CryptContext.bcrypt_identify "not-a-hash" = false ->
      @password.verify_password StubBcrypt.handler "Secret123" "not-a-hash"
      = Raise UnknownHashError).
Proof.
  split; [ reflexivity | ].
  apply (@C7_malformed_hash_raises StubBcrypt.handler
           "Secret123" "not-a-hash").
  reflexivity.
Defined.

Section login_claims.
Context `{Hmac} `{Bcrypt}.
Variable settings : Settings.

Lemma authenticate_user_failure db now login_data :
  login_failure db login_data ->
  UserService.authenticate_user settings db now login_data = Ok None.
Proof.
  unfold UserService.authenticate_user.
  intros [Hnone | user Huser Hpw | user Huser Hpw Hact].
  - by rewrite Hnone.
  - rewrite Huser, Hpw. reflexivity.
  - rewrite Huser, Hpw. simpl. rewrite Hact. reflexivity.
Qed.

(** The part of C5 that holds: an unknown email, a password that
    verification answers with false and an inactive account all make
    [authenticate_user] return nothing, and the login handler, which has
    first checked the format of the email, answers each of them with the one
    error "Incorrect email or password" (401). *)
Lemma login_failure_uniform db now login_data :
  login_failure db login_data ->
  UserService.authenticate_user settings db now login_data = Ok None
  /\ (validation.validate_email_format (LoginRequest.email login_data) = true
      -> api_auth.login_user settings db now login_data
         = Raise authentication_failed).
Proof.
  intros Hfail.
  pose proof (authenticate_user_failure db now login_data Hfail) as Hauth.
  split; [ exact Hauth | ].
  intros Hfmt. unfold api_auth.login_user. rewrite Hfmt, Hauth. reflexivity.
Qed.

Lemma authenticate_user_verify_raises db now login_data user e :
  DatabaseService.get_user_by_email db (LoginRequest.email login_data)
  = Some user ->
  password.verify_password (LoginRequest.password login_data)
                           (User.hashed_password user) = Raise e ->
  UserService.authenticate_user settings db now login_data = Raise e.
Proof.
  intros Huser Hpw. unfold UserService.authenticate_user.
  rewrite Huser, Hpw. reflexivity.
Qed.

(** C5, as the code has it.  Login failure is not uniform.  When the
    verification of the password against the stored hash fails by raising
    (the library refuses the password, or the stored hash), nothing between
    [verify_password] and the handler catches the error: for the email of an
    account the login ends in that error, while for an email without account
    the same password is answered "Incorrect email or password" (401).  The
    error being another one than the 401, the two answers differ and tell
    whether the account exists. *)
Theorem C5_login_failure_not_uniform db now email unknown password user e :
  validation.validate_email_format email = true ->
  validation.validate_email_format unknown = true ->
  DatabaseService.get_user_by_email db email = Some user ->
  DatabaseService.get_user_by_email db unknown = None ->
  password.verify_password password (User.hashed_password user) = Raise e ->
  let known_account :=
    api_auth.login_user settings db now
      {| LoginRequest.email := email; LoginRequest.password := password |} in
  let no_account :=
    api_auth.login_user settings db now
      {| LoginRequest.email := unknown; LoginRequest.password := password |} in
  known_account = Raise e
  /\ no_account = Raise authentication_failed
  /\ (e <> authentication_failed -> known_account <> no_account).
Proof.
  intros Hfmt Hfmt' Huser Hnone Hpw known_account no_account.
  assert (known_account = Raise e) as Hknown.
  { unfold known_account, api_auth.login_user. simpl. rewrite Hfmt. simpl.
    rewrite (authenticate_user_verify_raises db now _ user e); done. }
  assert (no_account = Raise authentication_failed) as Hno.
  { apply login_failure_uniform; [ | exact Hfmt' ]. by apply no_such_user. }
  split; [ exact Hknown | split; [ exact Hno | ] ].
  rewrite Hknown, Hno. congruence.
Qed.

End login_claims.

Lemma login_failure_uniform_example :
  let login_user :=
    @api_auth.login_user stub_hmac StubBcrypt.handler example.settings
                         example.db 0 in
  login_user (example.login "nobody@x.com" "Secur3Pass")
    = Raise authentication_failed
  /\ login_user (example.login "a@x.com" "Wr0ngPass")
     = Raise authentication_failed
  /\ login_user (example.login "b@x.com" "Secur3Pass")
     = Raise authentication_failed.
Proof.
  cbv zeta. split; [ | split ].
  - apply (@login_failure_uniform stub_hmac StubBcrypt.handler
             example.settings example.db 0
             (example.login "nobody@x.com" "Secur3Pass")).
    + apply no_such_user. reflexivity.
    + reflexivity.
  - apply (@login_failure_uniform stub_hmac StubBcrypt.handler
             example.settings example.db 0
             (example.login "a@x.com" "Wr0ngPass")).
    + apply (wrong_password _ _ example.alice); reflexivity.
    + reflexivity.
  - apply (@login_failure_uniform stub_hmac StubBcrypt.handler
             example.settings example.db 0
             (example.login "b@x.com" "Secur3Pass")).
    + apply (inactive_user _ _ example.bob); reflexivity.
    + reflexivity.
Qed.

(** A login with a password of 4097 characters: the library's size error for
    alice's email, the 401 for an email without account. *)
Lemma C5_witness :
  let login_user :=
    @api_auth.login_user stub_hmac StubBcrypt.handler example.settings
                         example.db 0 in
  let known_account :=
    login_user (example.login "a@x.com" example.oversize_password) in
  let no_account :=
    login_user (example.login "nobody@x.com" example.oversize_password) in
  known_account = Raise PasswordSizeError
  /\ no_account = Raise authentication_failed
  /\ known_account <> no_account.
Proof.
  cbv zeta.
  destruct (@C5_login_failure_not_uniform stub_hmac StubBcrypt.handler
              example.settings example.db 0 "a@x.com" "nobody@x.com"
              example.oversize_password example.alice PasswordSizeError)
    as (Hknown & Hno & Hdiff).
  - reflexivity.
  - reflexivity.
  - reflexivity.
  - reflexivity.
  - apply verify_password_oversize; [ reflexivity | ].
    vm_compute. reflexivity.
  - split; [ exact Hknown | split; [ exact Hno | ] ].
    apply Hdiff. discriminate.
Defined.

(** *** Task ownership *)

Section task_claims.


Lemma get_task_by_id_Some db task_id user_id task :
  TaskService.get_task_by_id db task_id user_id = Some task ->
  task ∈ tasks db /\ Task.id task = task_id /\ Task.user_id task = user_id.
Proof.
  unfold TaskService.get_task_by_id. intros Hfind.
  apply List.find_some in Hfind as [Hin Hp].
  apply andb_true_iff in Hp as [Hid Hu].
  apply bool_decide_eq_true_1 in Hid. apply bool_decide_eq_true_1 in Hu.
  split; [ by apply list_elem_of_In | done ].
Qed.

Lemma get_task_by_id_None db task_id user_id :
  ~ owned_task_exists db task_id user_id ->
  TaskService.get_task_by_id db task_id user_id = None.
Proof.
  intros Hno.
  destruct (TaskService.get_task_by_id db task_id user_id) as [task | ]
    eqn:Hget; [ | done ].
  exfalso. apply Hno. exists task. by apply get_task_by_id_Some.
Qed.

Lemma get_task_by_id_owned db task_id user_id :
  owned_task_exists db task_id user_id ->
  is_Some (TaskService.get_task_by_id db task_id user_id).
Proof.
  intros (task & Hin & Hid & Hu).
  destruct (TaskService.get_task_by_id db task_id user_id) eqn:Hget;
    [ eauto | ].
  unfold TaskService.get_task_by_id in Hget.
  apply list_elem_of_In in Hin.
  pose proof (List.find_none _ _ Hget task Hin) as Hp. simpl in Hp.
  rewrite !bool_decide_eq_true_2 in Hp by done. discriminate.
Qed.

Lemma apply_update_keeps_key task_update task task' :
  TaskService.apply_update task_update task = Some task' ->
  Task.id task' = Task.id task /\ Task.user_id task' = Task.user_id task.
Proof.
  unfold TaskService.apply_update. intros Hup.
  destruct (TaskUpdate.title task_update) as [[title | ] | ],
    (TaskUpdate.priority task_update) as [[priority | ] | ],
    (TaskUpdate.completed task_update) as [[completed | ] | ];
    simpl in Hup; simplify_eq; done.
Qed.

Lemma not_found_without_owned_task db now task_id task_update current_user :
  ~ owned_task_exists db task_id (User.id current_user) ->
  api_tasks.get_task db task_id current_user = Raise api_tasks.not_found
  /\ api_tasks.update_task db now task_id task_update current_user
     = Raise api_tasks.not_found
  /\ api_tasks.delete_task db task_id current_user
     = Raise api_tasks.not_found.
Proof.
  intros Hno. apply get_task_by_id_None in Hno.
  unfold api_tasks.get_task, api_tasks.update_task, api_tasks.delete_task,
    TaskService.update_task, TaskService.delete_task.
  rewrite Hno. done.
Qed.

Lemma get_task_ok db task_id current_user task :
  api_tasks.get_task db task_id current_user = Ok task ->
  task ∈ tasks db /\ Task.id task = task_id
  /\ Task.user_id task = User.id current_user.
Proof.
  unfold api_tasks.get_task. intros Hok.
  destruct (TaskService.get_task_by_id db task_id (User.id current_user))
    as [t0 | ] eqn:Hget; [ | discriminate ].
  injection Hok as <-. by apply get_task_by_id_Some.
Qed.

Lemma update_task_ok db now task_id task_update current_user task db' :
  api_tasks.update_task db now task_id task_update current_user
  = Ok (task, db') ->
  owned_task_exists db task_id (User.id current_user)
  /\ Task.id task = task_id
  /\ Task.user_id task = User.id current_user.
Proof.
  unfold api_tasks.update_task, TaskService.update_task. intros Hok.
  destruct (TaskService.get_task_by_id db task_id (User.id current_user))
    as [t0 | ] eqn:Hget; [ | discriminate ].
  apply get_task_by_id_Some in Hget as (Hin & Hid & Hu).
  destruct (TaskService.apply_update task_update t0) as [t1 | ] eqn:Hup;
    [ | discriminate ].
  apply apply_update_keeps_key in Hup as [Hk1 Hk2].
  simpl in Hok. injection Hok as <- <-. simpl.
  split; [ by exists t0 | split; congruence ].
Qed.

Lemma delete_task_ok db task_id current_user msg db' :
  api_tasks.delete_task db task_id current_user = Ok (msg, db') ->
  owned_task_exists db task_id (User.id current_user).
Proof.
  unfold api_tasks.delete_task, TaskService.delete_task. intros Hok.
  destruct (TaskService.get_task_by_id db task_id (User.id current_user))
    as [t0 | ] eqn:Hget; [ | discriminate ].
  exists t0. by apply get_task_by_id_Some.
Qed.

(** C6.  Ownership isolation.  When no task with the requested id belongs
    to the principal, be it that the id is unknown or that the task is
    another user's, get, update and delete all answer with the same
    not-found error; and whenever one of them succeeds, a task with that id
    owned by the principal was in the table (for get and update, the task
    returned is the principal's). *)
Theorem C6_ownership_isolation db now task_id task_update current_user :
  (~ owned_task_exists db task_id (User.id current_user) ->
   api_tasks.get_task db task_id current_user = Raise api_tasks.not_found
   /\ api_tasks.update_task db now task_id task_update current_user
      = Raise api_tasks.not_found
   /\ api_tasks.delete_task db task_id current_user
      = Raise api_tasks.not_found)
  /\ (forall task,
        api_tasks.get_task db task_id current_user = Ok task ->
        task ∈ tasks db /\ Task.id task = task_id
        /\ Task.user_id task = User.id current_user)
  /\ (forall task db',
        api_tasks.update_task db now task_id task_update current_user
        = Ok (task, db') ->
        owned_task_exists db task_id (User.id current_user)
        /\ Task.id task = task_id
        /\ Task.user_id task = User.id current_user)
  /\ (forall msg db',
        api_tasks.delete_task db task_id current_user = Ok (msg, db') ->
        owned_task_exists db task_id (User.id current_user)).
Proof.
  split; [ apply not_found_without_owned_task | ].
  split; [ apply get_task_ok | ].
  split; [ apply update_task_ok | apply delete_task_ok ].
Qed.

End task_claims.

Lemma C6_witness :
  let bob_sees (task_id : string) :=
    api_tasks.get_task example.db task_id example.bob
      = Raise api_tasks.not_found
    /\ api_tasks.update_task example.db 1 task_id example.no_update
                             example.bob
       = Raise api_tasks.not_found
    /\ api_tasks.delete_task example.db task_id example.bob
       = Raise api_tasks.not_found in
  bob_sees (Task.id example.alice_task)
  /\ bob_sees "00000000-0000-4000-8000-000000000000"
  /\ Task.user_id example.alice_task = User.id example.alice.
Proof.
  cbv zeta. split; [ | split ].
  - apply (proj1 (C6_ownership_isolation example.db 1
                    (Task.id example.alice_task) example.no_update
                    example.bob)).
    intros (task & Hin & _ & Hu).
    apply list_elem_of_singleton in Hin. subst task. discriminate Hu.
  - apply (proj1 (C6_ownership_isolation example.db 1
                    "00000000-0000-4000-8000-000000000000" example.no_update
                    example.bob)).
    intros (task & Hin & Hid & _).
    apply list_elem_of_singleton in Hin. subst task. discriminate Hid.
  - apply (proj1 (proj2 (C6_ownership_isolation example.db 1
                           (Task.id example.alice_task) example.no_update
                           example.alice)) example.alice_task).
    reflexivity.
Defined.

(** *** The revocation registry *)

Section registry_claims.
Context {R : Type} `{RedisClient R}.

Lemma init_in_memory settings (from_url : string -> R) :
  REDIS_URL settings = None ->
  TokenService.init settings from_url
  = {| TokenService.redis_client := None;
       TokenService._blacklisted_tokens := ∅ |}.
Proof. unfold TokenService.init. by intros ->. Qed.

(** In memory, a token that was revoked is reported as revoked. *)
Lemma blacklist_token_in_memory (blacklisted : gset token) now now' tok
    expiration :
  let self := {| TokenService.redis_client := None;
                 TokenService._blacklisted_tokens := blacklisted |} in
  let self' := {| TokenService.redis_client := None;
                  TokenService._blacklisted_tokens :=
                    {[ tok ]} ∪ blacklisted |} in
  TokenService.blacklist_token self now tok expiration = Ok (true, self')
  /\ TokenService.is_token_blacklisted self' now' tok = Ok true.
Proof.
  simpl. split; [ reflexivity | ].
  unfold TokenService.is_token_blacklisted. simpl.
  rewrite bool_decide_eq_true_2 by set_solver. reflexivity.
Qed.




(** C10.  Without a store, the user-wide logout is a no-op: for every user
    id [blacklist_user_tokens] reports success and leaves the service as it
    was, and [is_user_logged_out] answers false for every user id, before
    and after. *)
Theorem C10_user_logout_is_a_noop_in_memory (blacklisted : gset token) now
    user_id expiration :
  let self := {| TokenService.redis_client := None;
                 TokenService._blacklisted_tokens := blacklisted |} in
  TokenService.blacklist_user_tokens self now user_id expiration
  = Ok (true, self)
  /\ forall now' user_id',
       TokenService.is_user_logged_out self now' user_id' = Ok false.
Proof. simpl. split; [ reflexivity | intros; reflexivity ]. Qed.

End registry_claims.


Lemma revoked_while_store_is_up :
  @TokenService.is_token_blacklisted _ FakeRedis.client
    example_outage.service_up 1 example_outage.tok = Ok true
  /\ @TokenService.is_user_logged_out _ FakeRedis.client
       example_outage.service_up 1 (User.id example.alice) = Ok true.
Proof.
  unfold TokenService.is_token_blacklisted, TokenService.is_user_logged_out.
  simpl. unfold FakeRedis.exists_. simpl.
  rewrite lookup_insert_ne by done. rewrite !lookup_insert_eq.
  split; reflexivity.
Qed.


(** *** Logout and the access guard *)

Section logout_claims.
Context {R : Type} `{RedisClient R}.

Lemma blacklist_token_never_raises (self : TokenService.t R) now tok
    expiration :
  exists ok self',
    TokenService.blacklist_token self now tok expiration = Ok (ok, self').
Proof.
  unfold TokenService.blacklist_token.
  destruct (TokenService.redis_client self) as [r | ]; simpl; [ | eauto ].
  destruct (setex r now (blacklisted_token tok)
              (TokenService.or_24_hours expiration) "true"); simpl; eauto.
Qed.

(** The logout handler answers with success whatever the store does, and
    logs nothing. *)
Lemma logout_user_always_succeeds (token_service : TokenService.t R) now tok
    current_user :
  exists token_service',
    api_auth.logout_user token_service now tok current_user
    = Ok ({| LogoutResponse.message := "Successfully logged out";
             LogoutResponse.user_id := User.id current_user |},
          token_service', []).
Proof.
  unfold api_auth.logout_user.
  destruct (blacklist_token_never_raises token_service now tok None)
    as (ok & self' & ->).
  simpl. eauto.
Qed.

End logout_claims.

(** C8.  With a store that raises on every command, [blacklist_token]
    reports the failure to its caller, and the logout handler drops it:
    the answer is the success message, the service is as it was, and no
    record is logged. *)
Theorem C8_logout_store_failure_is_not_logged
    (entries : gmap redis_key Z) now tok current_user :
  let store := {| FakeRedis.reachable := false;
                  FakeRedis.entries := entries |} in
  let token_service := {| TokenService.redis_client := Some store;
                          TokenService._blacklisted_tokens := ∅ |} in
  @TokenService.blacklist_token _ FakeRedis.client token_service now tok None
  = Ok (false, token_service)
  /\ @api_auth.logout_user _ FakeRedis.client token_service now tok
       current_user
     = Ok ({| LogoutResponse.message := "Successfully logged out";
              LogoutResponse.user_id := User.id current_user |},
           token_service, []).
Proof. simpl. split; reflexivity. Qed.

Section guard_claims.
Context `{Hmac}.

Lemma guard_accepts_valid_token settings db now tok user :
  utils_jwt.verify_access_token settings now tok
  = Ok {| TokenData.user_id := User.id user;
          TokenData.email := User.email user;
          TokenData.exp := None |} ->
  DatabaseService.get_user_by_id db (User.id user) = Some user ->
  User.is_active user = true ->
  deps.get_current_user settings db now tok = Ok user.
Proof.
  intros Hv Hu Ha. unfold deps.get_current_user.
  rewrite Hv. simpl. unfold UserService.get_user_by_id.
  rewrite Hu, Ha. reflexivity.
Qed.

(** C2.  The access guard does not consult the revocation registry: a
    token that [blacklist_token] has just recorded, and that
    [is_token_blacklisted] reports as revoked, still resolves to its
    user. *)
Theorem C2_revoked_token_passes_guard (blacklisted : gset token) utcnow :
  let tok := utils_jwt.create_access_token example.settings utcnow
               (identity_claims (User.id example.alice)
                                (User.email example.alice)) None in
  let self : TokenService.t FakeRedis.t :=
    {| TokenService.redis_client := None;
       TokenService._blacklisted_tokens := blacklisted |} in
  let self' : TokenService.t FakeRedis.t :=
    {| TokenService.redis_client := None;
       TokenService._blacklisted_tokens := {[ tok ]} ∪ blacklisted |} in
  @TokenService.blacklist_token _ FakeRedis.client self utcnow tok None
  = Ok (true, self')
  /\ @TokenService.is_token_blacklisted _ FakeRedis.client self' utcnow tok
     = Ok true
  /\ deps.get_current_user example.settings example.db utcnow tok
     = Ok example.alice.
Proof.
  intros tok self self'.
  pose proof (@blacklist_token_in_memory _ FakeRedis.client blacklisted
                utcnow utcnow tok None) as [Hb Hi].
  split; [ exact Hb | split; [ exact Hi | ] ].
  apply guard_accepts_valid_token; [ | reflexivity | reflexivity ].
  by apply create_then_verify_default.
Qed.

End guard_claims.

(** The same holds for the user-wide logout: with a live entry for the user
    in the store, the guard still resolves the user's token. *)
Lemma logged_out_user_passes_guard :
  @TokenService.is_user_logged_out _ FakeRedis.client
    example_outage.service_up 1 (User.id example.alice) = Ok true
  /\ @deps.get_current_user stub_hmac example.settings example.db 1
       example_outage.tok = Ok example.alice.
Proof.
  split; [ apply revoked_while_store_is_up | ].
  apply guard_accepts_valid_token; [ | reflexivity | reflexivity ].
  apply create_then_verify. simpl.
  pose proof (timegm_lower (0 + datetime.hours 24)).
  unfold datetime.hours, datetime.second in *. lia.
Qed.

(** *** Runs of the token claims on the example data *)


Lemma C3_witness :
  @utils_jwt.verify_access_token stub_hmac example.settings
    (datetime.hours 24 - 1) example_tokens.access
  = Ok {| TokenData.user_id := User.id example.alice;
          TokenData.email := User.email example.alice;
          TokenData.exp := None |}.
Proof.
  apply (@C3_access_token_round_trip stub_hmac example.settings 0
           (datetime.hours 24 - 1) (User.id example.alice)
           (User.email example.alice) None 86400).
  - vm_compute. reflexivity.
  - vm_compute. reflexivity.
Defined.

Lemma C4_witness :
  (exists err,
     @utils_jwt.verify_token stub_hmac example.settings 0
       example_tokens.expired None = Raise err)
  /\ (exists err,
        @utils_jwt.verify_access_token stub_hmac example.settings 0
          example_tokens.expired = Raise err)
  /\ forall now' td,
       @utils_jwt.verify_token stub_hmac example.settings now'
         example_tokens.expired None = Ok td ->
       now' < -1 * datetime.second.
Proof.
  apply (@C4_expired_token_fails stub_hmac example.settings 0
           example_tokens.expired (-1) None).
  - vm_compute. reflexivity.
  - vm_compute. discriminate.
Defined.

(** ** Further properties of the code *)

(** *** Verification and refresh of tokens *)

Section token_extras.
Context `{Hmac}.
Variable settings : Settings.

Lemma decode_ok_inv now tok key algs payload :
  jwt.decode now tok key algs = Ok payload ->
  exists alg,
    alg ∈ algs
    /\ tok = Jws alg payload (hmac_sha256 key (alg, payload))
    /\ forall x, token_exp tok = Some x -> now < x * datetime.second.
Proof.
  unfold jwt.decode. intros Hd.
  destruct tok as [raw | alg p sig]; [ discriminate | ].
  destruct (bool_decide (alg ∈ algs)) eqn:Halg; simpl in Hd;
    [ | discriminate ].
  destruct (bool_decide (sig = hmac_sha256 key (alg, p))) eqn:Hsig;
    simpl in Hd; [ | discriminate ].
  apply bool_decide_eq_true_1 in Halg. apply bool_decide_eq_true_1 in Hsig.
  exists alg. simpl.
  destruct (p !! "exp") as [[ | s | n] | ] eqn:Hp; try discriminate.
  - destruct (bool_decide (n * datetime.second <= now)) eqn:Hn;
      [ discriminate | ].
    apply bool_decide_eq_false_1 in Hn.
    injection Hd as <-. subst sig.
    split; [ done | split; [ done | ] ].
    intros x [= <-]. lia.
  - injection Hd as <-. subst sig.
    split; [ done | split; [ done | ] ]. intros x [=].
Qed.

Lemma TokenData_new_inv user_id email td :
  TokenData.new user_id email = Ok td ->
  user_id = JStr (TokenData.user_id td) /\ email = JStr (TokenData.email td)
  /\ TokenData.exp td = None.
Proof.
  unfold TokenData.new. intros Hn.
  destruct user_id, email; try discriminate. by injection Hn as <-.
Qed.

Lemma dict_get_JStr (d : gmap string json) k s :
  dict_get d k = JStr s -> d !! k = Some (JStr s).
Proof.
  unfold dict_get. destruct (d !! k) as [v | ]; simpl; [ | discriminate ].
  by intros ->.
Qed.

Lemma verify_token_ok_inv now tok cex td :
  utils_jwt.verify_token settings now tok cex = Ok td ->
  exists payload,
    jwt.decode now tok (BETTER_AUTH_SECRET settings) ["HS256"] = Ok payload
    /\ dict_get payload "sub" = JStr (TokenData.user_id td)
    /\ dict_get payload "email" = JStr (TokenData.email td)
    /\ TokenData.exp td = None.
Proof.
  unfold utils_jwt.verify_token. intros Hv.
  destruct (jwt.decode now tok (BETTER_AUTH_SECRET settings) ["HS256"])
    as [payload | e] eqn:Hd; simpl in Hv.
  - destruct (bool_decide (dict_get payload "sub" = JNull)
              || bool_decide (dict_get payload "email" = JNull)) eqn:Hnull;
      simpl in Hv.
    + destruct (isinstance_JWTError _) in Hv; discriminate.
    + destruct (TokenData.new _ _) as [td' | e] eqn:Hnew; simpl in Hv.
      * injection Hv as ->.
        apply TokenData_new_inv in Hnew as (Hs & He & Hx).
        exists payload.
        split; [ reflexivity | split; [ exact Hs | split; [ exact He | ] ] ].
        exact Hx.
      * destruct (isinstance_JWTError e); discriminate.
  - destruct (isinstance_JWTError e); discriminate.
Qed.

(** Soundness of verification: [verify_token] yields claims only for a token
    of algorithm HS256 that carries the signature of the configured secret,
    whose [sub] and [email] are the strings returned, and whose expiry, when
    it has one, is still ahead; the [exp] field of the result is never
    filled. *)
Theorem verify_token_sound now tok cex td :
  utils_jwt.verify_token settings now tok cex = Ok td ->
  exists payload,
    tok = Jws "HS256" payload
            (hmac_sha256 (BETTER_AUTH_SECRET settings) ("HS256", payload))
    /\ payload !! "sub" = Some (JStr (TokenData.user_id td))
    /\ payload !! "email" = Some (JStr (TokenData.email td))
    /\ TokenData.exp td = None
    /\ forall x, token_exp tok = Some x -> now < x * datetime.second.
Proof.
  intros Hv.
  apply verify_token_ok_inv in Hv as (payload & Hd & Hs & He & Hx).
  apply decode_ok_inv in Hd as (alg & Halg & -> & Hexp).
  apply list_elem_of_singleton in Halg as ->.
  exists payload.
  split; [ reflexivity | ].
  split; [ by apply dict_get_JStr | ].
  split; [ by apply dict_get_JStr | ].
  split; [ exact Hx | exact Hexp ].
Qed.

(** A token that decodes but has no [sub] or no [email] (the key is missing
    or holds [null]) is refused with the exception the caller supplied, or
    with the 401 "Could not validate credentials" when it supplied none. *)
Theorem verify_token_missing_claim now tok cex payload :
  jwt.decode now tok (BETTER_AUTH_SECRET settings) ["HS256"] = Ok payload ->
  dict_get payload "sub" = JNull \/ dict_get payload "email" = JNull ->
  utils_jwt.verify_token settings now tok cex
  = Raise (default utils_jwt.default_credentials_exception cex).
Proof.
  intros Hd Hmiss. unfold utils_jwt.verify_token. rewrite Hd. simpl.
  assert (bool_decide (dict_get payload "sub" = JNull)
          || bool_decide (dict_get payload "email" = JNull) = true) as ->.
  { destruct Hmiss as [-> | ->]; rewrite ?bool_decide_eq_true_2 by done;
      [ done | by rewrite orb_true_r ]. }
  simpl. destruct cex as [[] | ]; reflexivity.
Qed.

End token_extras.

Section refresh_extras.
Context `{Hmac}.
Variable settings : Settings.

Lemma token_exp_refresh utcnow data expires_delta :
  token_exp (utils_jwt.create_refresh_token settings utcnow data expires_delta)
  = Some (datetime.timegm
            (if utils_jwt.truthy expires_delta
             then utcnow + default 0 expires_delta
             else utcnow + datetime.days 7)).
Proof.
  unfold utils_jwt.create_refresh_token, jwt.encode, token_exp.
  rewrite lookup_insert_ne by done. by rewrite lookup_insert_eq.
Qed.

Lemma verify_refresh_token_fresh utcnow now u e expires_delta :
  now < datetime.timegm
          (if utils_jwt.truthy expires_delta
           then utcnow + default 0 expires_delta
           else utcnow + datetime.days 7) * datetime.second ->
  utils_jwt.verify_refresh_token settings now
    (utils_jwt.create_refresh_token settings utcnow (identity_claims u e)
                                    expires_delta)
  = Ok {| TokenData.user_id := u; TokenData.email := e;
          TokenData.exp := None |}.
Proof.
  intros Hlt.
  unfold utils_jwt.verify_refresh_token, utils_jwt.create_refresh_token.
  rewrite decode_encode.
  rewrite lookup_insert_ne by done. rewrite lookup_insert_eq.
  rewrite bool_decide_eq_false_2 by lia. simpl.
  unfold dict_get. rewrite lookup_insert_eq. simpl.
  rewrite !(lookup_insert_ne _ "type") by done.
  rewrite identity_claims_sub, identity_claims_email. reflexivity.
Qed.

(** The refresh flow: a refresh token issued for [u] and [e], presented
    before its expiry, is exchanged for the access token of [u] and [e]
    issued at that instant with the default lifetime, and (the configured
    lifetime being positive) this access token verifies to [u] and [e]. *)
Theorem refresh_round_trip utcnow now u e expires_delta x :
  let refresh_token := utils_jwt.create_refresh_token settings utcnow
                         (identity_claims u e) expires_delta in
  let access_token := utils_jwt.create_access_token settings now
                        (identity_claims u e) None in
  token_exp refresh_token = Some x ->
  now < x * datetime.second ->
  utils_jwt.refresh_access_token settings now refresh_token = Ok access_token
  /\ (0 < JWT_EXPIRATION_HOURS settings ->
      utils_jwt.verify_access_token settings now access_token
      = Ok {| TokenData.user_id := u; TokenData.email := e;
              TokenData.exp := None |}).
Proof.
  intros rt at_ Hexp Hlt. subst rt at_.
  rewrite token_exp_refresh in Hexp. injection Hexp as <-.
  split.
  - unfold utils_jwt.refresh_access_token.
    rewrite verify_refresh_token_fresh by done. reflexivity.
  - apply create_then_verify_default.
Qed.

(** An access token cannot be used to refresh: presented before its expiry,
    the access token issued for [u] and [e] makes [refresh_access_token],
    and the refresh endpoint, raise the 401 "Invalid token type". *)
Theorem refresh_rejects_access_token utcnow now u e expires_delta x :
  let access_token := utils_jwt.create_access_token settings utcnow
                        (identity_claims u e) expires_delta in
  token_exp access_token = Some x ->
  now < x * datetime.second ->
  utils_jwt.refresh_access_token settings now access_token
  = Raise invalid_token_type
  /\ api_auth.refresh_access_token_endpoint settings now access_token
     = Raise invalid_token_type.
Proof.
  intros at_ Hexp Hlt. subst at_.
  rewrite token_exp_access in Hexp. injection Hexp as <-.
  assert (utils_jwt.verify_refresh_token settings now
            (utils_jwt.create_access_token settings utcnow
               (identity_claims u e) expires_delta)
          = Raise invalid_token_type) as Hv.
  { unfold utils_jwt.verify_refresh_token, utils_jwt.create_access_token.
    rewrite decode_encode, lookup_insert_eq.
    rewrite bool_decide_eq_false_2 by lia. simpl.
    unfold dict_get, identity_claims.
    rewrite !lookup_insert_ne by done. rewrite lookup_empty. reflexivity. }
  assert (utils_jwt.refresh_access_token settings now
            (utils_jwt.create_access_token settings utcnow
               (identity_claims u e) expires_delta)
          = Raise invalid_token_type) as Hr.
  { unfold utils_jwt.refresh_access_token. rewrite Hv. reflexivity. }
  split; [ exact Hr | ].
  unfold api_auth.refresh_access_token_endpoint. rewrite Hr. reflexivity.
Qed.

Lemma verify_refresh_token_http_401 now tok e :
  utils_jwt.verify_refresh_token settings now tok = Raise e ->
  api_auth.isinstance_HTTPException e = true ->
  exists detail headers, e = HTTPException HTTP_401_UNAUTHORIZED detail headers.
Proof.
  unfold utils_jwt.verify_refresh_token. intros Hv Hhttp.
  destruct (jwt.decode now tok (BETTER_AUTH_SECRET settings) ["HS256"])
    as [payload | e'] eqn:Hd; simpl in Hv.
  - destruct (bool_decide (dict_get payload "type" = JStr "refresh"));
      simpl in Hv.
    + destruct (bool_decide (dict_get payload "sub" = JNull)
                || bool_decide (dict_get payload "email" = JNull));
        simpl in Hv.
      * injection Hv as <-. eauto.
      * destruct (TokenData.new _ _) as [td | e'] eqn:Hnew;
          simpl in Hv; [ discriminate | ].
        unfold TokenData.new in Hnew.
        repeat case_match; simplify_eq; simpl in *; try discriminate; eauto.
    + injection Hv as <-. eauto.
  - destruct (isinstance_JWTError e'); injection Hv as <-; eauto.
    apply decode_raises_pyjwt in Hd as [k ->]. discriminate.
Qed.

(** Every failure of the refresh endpoint is an [HTTPException] of status
    401, and every success announces a bearer token and 3600 seconds. *)
Theorem refresh_endpoint_uniform_status now refresh_token :
  (exists access_token,
     api_auth.refresh_access_token_endpoint settings now refresh_token
     = Ok {| RefreshTokenResponse.access_token := access_token;
             RefreshTokenResponse.token_type := "bearer";
             RefreshTokenResponse.expires_in := 3600 |})
  \/ (exists detail headers,
        api_auth.refresh_access_token_endpoint settings now refresh_token
        = Raise (HTTPException HTTP_401_UNAUTHORIZED detail headers)).
Proof.
  unfold api_auth.refresh_access_token_endpoint,
    utils_jwt.refresh_access_token.
  destruct (utils_jwt.verify_refresh_token settings now refresh_token)
    as [td | e] eqn:Hv; simpl.
  - left. eauto.
  - right. destruct (api_auth.isinstance_HTTPException e) eqn:Hhttp.
    + destruct (verify_refresh_token_http_401 now refresh_token e Hv Hhttp)
        as (detail & headers & ->). eauto.
    + eauto.
Qed.

End refresh_extras.

(** *** The access guard *)

Section guard_extras.
Context `{Hmac}.
Variable settings : Settings.

(** Uniform failure of the guard: whatever goes wrong (a bad token, an
    unknown user, an inactive user), the caller sees the one 401 "Could not
    validate credentials"; the details "User not found" and "Inactive user"
    never leave the function. *)
Theorem get_current_user_uniform_failure db now tok :
  (exists user, deps.get_current_user settings db now tok = Ok user)
  \/ deps.get_current_user settings db now tok = Raise could_not_validate.
Proof.
  unfold deps.get_current_user.
  destruct (utils_jwt.verify_access_token settings now tok) as [td | e];
    simpl; [ | by right ].
  destruct (UserService.get_user_by_id db (TokenData.user_id td))
    as [user | ]; simpl; [ | by right ].
  destruct (User.is_active user); simpl; [ left; eauto | by right ].
Qed.

Lemma get_user_by_id_Some db user_id user :
  DatabaseService.get_user_by_id db user_id = Some user ->
  user ∈ users db /\ User.id user = user_id.
Proof.
  unfold DatabaseService.get_user_by_id. intros Hf.
  apply List.find_some in Hf as [Hin Hid].
  apply bool_decide_eq_true_1 in Hid.
  split; [ by apply list_elem_of_In | done ].
Qed.

Lemma get_current_user_ok_inv db now tok user :
  deps.get_current_user settings db now tok = Ok user ->
  exists td,
    utils_jwt.verify_access_token settings now tok = Ok td
    /\ DatabaseService.get_user_by_id db (TokenData.user_id td) = Some user
    /\ User.is_active user = true.
Proof.
  unfold deps.get_current_user. intros Hg.
  destruct (utils_jwt.verify_access_token settings now tok) as [td | e]
    eqn:Hv; simpl in Hg; [ | discriminate ].
  unfold UserService.get_user_by_id in Hg.
  destruct (DatabaseService.get_user_by_id db (TokenData.user_id td))
    as [user' | ] eqn:Hu; simpl in Hg; [ | discriminate ].
  destruct (User.is_active user') eqn:Ha; simpl in Hg; [ | discriminate ].
  injection Hg as ->. exists td.
  split; [ reflexivity | split; [ exact Hu | exact Ha ] ].
Qed.

(** Soundness of the guard: the user it returns is a row of the users'
    table, is active, and is the row the lookup returns for the [sub] of the
    token; the token is of algorithm HS256, signed with the configured
    secret, carries a [sub] and an [email] that are strings, and is not
    expired.  (That the [sub] is spelled as the id of the row is not
    claimed: it is for the column type to say which texts name the same
    id.) *)
Theorem get_current_user_sound db now tok user :
  deps.get_current_user settings db now tok = Ok user ->
  user ∈ users db
  /\ User.is_active user = true
  /\ exists payload sub email,
       tok = Jws "HS256" payload
               (hmac_sha256 (BETTER_AUTH_SECRET settings) ("HS256", payload))
       /\ payload !! "sub" = Some (JStr sub)
       /\ payload !! "email" = Some (JStr email)
       /\ UserService.get_user_by_id db sub = Some user
       /\ forall x, token_exp tok = Some x -> now < x * datetime.second.
Proof.
  intros Hg.
  apply get_current_user_ok_inv in Hg as (td & Hv & Hu & Ha).
  pose proof (get_user_by_id_Some _ _ _ Hu) as [Hin _].
  apply verify_token_ok_inv in Hv as (payload & Hd & Hs & He & _).
  apply decode_ok_inv in Hd as (alg & Halg & -> & Hexp).
  apply list_elem_of_singleton in Halg as ->.
  apply dict_get_JStr in Hs. apply dict_get_JStr in He.
  split; [ exact Hin | split; [ exact Ha | ] ].
  exists payload, (TokenData.user_id td), (TokenData.email td).
  split; [ reflexivity | ].
  split; [ exact Hs | ].
  split; [ exact He | ].
  split; [ exact Hu | exact Hexp ].
Qed.

(** Completeness of the guard: the token [create_access_token_for_user]
    issues for a user resolves to that user at every instant before its
    expiry, provided the user is active and is the row the table gives for
    its id. *)
Theorem get_current_user_complete db utcnow now user :
  DatabaseService.get_user_by_id db (User.id user) = Some user ->
  User.is_active user = true ->
  now < datetime.timegm
          (utcnow + datetime.hours (JWT_EXPIRATION_HOURS settings))
        * datetime.second ->
  deps.get_current_user settings db now
    (UserService.create_access_token_for_user settings utcnow user)
  = Ok user.
Proof.
  intros Hu Ha Hlt.
  apply guard_accepts_valid_token; [ | done | done ].
  unfold UserService.create_access_token_for_user.
  by apply (create_then_verify settings utcnow now (User.id user)
              (User.email user) None None).
Qed.

(** The second guard adds nothing to the first: a user [get_current_user]
    has resolved always passes [get_current_active_user], whose 400
    "Inactive user" is therefore never raised behind it. *)
Theorem get_current_active_user_after_guard db now tok user :
  deps.get_current_user settings db now tok = Ok user ->
  deps.get_current_active_user user = Ok user.
Proof.
  intros Hg. apply get_current_user_ok_inv in Hg as (td & _ & _ & Ha).
  unfold deps.get_current_active_user. by rewrite Ha.
Qed.

End guard_extras.

(** *** The password policy *)

Section policy_extras.
Context `{Unicode}.

(** The three statements of the password policy agree.  The check of
    [utils/password.py], the check of [utils/validation.py] and the validator
    of the registration request accept the same passwords, those of eight
    characters (code points) or more with an uppercase letter of [A-Z], a
    lowercase letter of [a-z] and a decimal digit of any script, and refuse
    every other password with the same message. *)
Theorem password_policies_agree password :
  let verdict := password.validate_password_requirements password in
  fst verdict = meets_policy password
  /\ validation.validate_password_strength password
     = (fst verdict, if fst verdict then None else Some (snd verdict))
  /\ RegisterRequest.validate_password password
     = if fst verdict then Valid password else ValueError (snd verdict).
Proof.
  unfold password.validate_password_requirements,
    validation.validate_password_strength,
    RegisterRequest.validate_password, meets_policy.
  replace (8 <=? Z.of_nat (str.len password))
    with (negb (Z.of_nat (str.len password) <? 8)) by lia.
  destruct (Z.of_nat (str.len password) <? 8); simpl; [ done | ].
  destruct (re.search_cls (re.between "A" "Z") password); simpl; [ | done ].
  destruct (re.search_cls (re.between "a" "z") password); simpl; [ | done ].
  destruct (re.search_cls re.digit password); simpl; done.
Qed.

(** The strength meter.  It always answers (the level it looks up exists);
    the score counts the checks passed, between 0 and 5, and every check
    missed leaves one line of feedback; "Strong" is the level of the scores
    4 and 5; and a password the policy accepts scores at least 4, so it is
    always rated "Strong". *)
Theorem get_password_strength_spec password :
  exists st,
    password.get_password_strength password = Some st
    /\ 0 <= password.score st <= 5
    /\ password.score st + Z.of_nat (length (password.feedback st)) = 5
    /\ (password.strength st = "Strong" <-> 4 <= password.score st)
    /\ (meets_policy password = true -> password.strength st = "Strong").
Proof.
  unfold password.get_password_strength, meets_policy.
  set (b1 := 8 <=? Z.of_nat (str.len password)).
  set (b2 := re.search_cls (re.between "a" "z") password).
  set (b3 := re.search_cls (re.between "A" "Z") password).
  set (b4 := re.search_cls re.digit password).
  set (b5 := re.search_cls password.special_char password).
  destruct b1, b2, b3, b4, b5; simpl;
    (eexists; split; [ reflexivity | ]); simpl;
    repeat split; intros; try lia; try done.
Qed.

End policy_extras.

(** Two runs on passwords that are not ASCII.  Seven letters followed by the
    Arabic-Indic digit three (U+0663, two bytes): eight characters and a
    digit, so the policy accepts it. *)
Lemma policy_accepts_digit_of_another_script :
  let password := "Abcdefg" +:+ String "217" (String "163" EmptyString) in
  str.code_points password = [65; 98; 99; 100; 101; 102; 103; 1635]%N
  /\ @password.validate_password_requirements stub_unicode password
     = (true, "").
Proof. split; reflexivity. Qed.

(** Three ASCII characters followed by two emoji (U+1F600, four bytes
    each): five characters, so the length check is missed and the score is
    3, "Good". *)
Lemma strength_counts_code_points :
  let emoji :=
    String "240" (String "159" (String "152" (String "128" EmptyString))) in
  let password := "Aa1" +:+ emoji +:+ emoji in
  str.len password = 5%nat
  /\ @password.get_password_strength stub_unicode password
     = Some {| password.score := 3;
               password.strength := "Good";
               password.feedback :=
                 ["Password should be at least 8 characters long";
                  "Add special characters"] |}.
Proof. split; reflexivity. Qed.

(** *** Registration, login and the life of an account *)

Section account_extras.
Context `{Hmac} `{Bcrypt} `{BcryptHasher}.
Variable settings : Settings.

Lemma decode_from_length pending s :
  (length (str.decode_from pending s)
   <= length (option_list pending) + String.length s)%nat.
Proof.
  revert pending. induction s as [ | c s IH]; intros pending; simpl.
  - lia.
  - destruct (str.is_continuation (str.byte c)).
    + specialize (IH (Some (default 0 pending * 64 + str.byte c mod 64)%N)).
      simpl in IH. lia.
    + rewrite length_app.
      specialize (IH (Some (str.lead_bits (str.byte c)))).
      simpl in IH. lia.
Qed.

(** A text has no more code points than bytes. *)
Lemma len_le_length s : (str.len s <= String.length s)%nat.
Proof. apply (decode_from_length None s). Qed.

Lemma find_none_existsb {A} (f : A -> bool) (l : list A) :
  List.find f l = None -> existsb f l = false.
Proof.
  induction l as [ | a l IH]; simpl; [ done | ].
  destruct (f a); [ discriminate | exact IH ].
Qed.

Lemma find_app_fresh {A} (f : A -> bool) (l : list A) (a : A) :
  List.find f l = None -> f a = true -> List.find f (l ++ [a]) = Some a.
Proof.
  induction l as [ | b l IH]; simpl; intros Hn Ha.
  - by rewrite Ha.
  - destruct (f b); [ discriminate | by apply IH ].
Qed.

(** Registering an email that is taken creates nothing: the service returns
    nothing and leaves the tables as they were, and the handler answers
    409 "Email already exists". *)
Theorem register_duplicate_email db user_data new_id salt created_at
    updated_at now existing :
  DatabaseService.get_user_by_email db (RegisterRequest.email user_data)
  = Some existing ->
  UserService.register_user settings db user_data new_id salt created_at
                            updated_at now
  = Ok (None, db)
  /\ (validation.validate_email_format (RegisterRequest.email user_data)
      = true ->
      api_auth.register_user settings db user_data new_id salt created_at
                             updated_at now
      = Raise email_already_exists).
Proof.
  intros Hex.
  assert (UserService.register_user settings db user_data new_id salt
            created_at updated_at now = Ok (None, db)) as Hr.
  { unfold UserService.register_user. by rewrite Hex. }
  split; [ exact Hr | ].
  intros Hfmt. unfold api_auth.register_user. rewrite Hfmt, Hr. reflexivity.
Qed.

Lemma register_user_fresh db user_data new_id salt created_at updated_at now
    hashed :
  Z.of_nat (String.length (RegisterRequest.email user_data)) <= 255 ->
  DatabaseService.get_user_by_email db (RegisterRequest.email user_data)
  = None ->
  DatabaseService.get_user_by_id db new_id = None ->
  password.hash_password salt (RegisterRequest.password user_data)
  = Ok hashed ->
  let user :=
    {| User.id := new_id;
       User.email := RegisterRequest.email user_data;
       User.hashed_password := hashed;
       User.is_active := true;
       User.created_at := created_at;
       User.updated_at := updated_at |} in
  UserService.register_user settings db user_data new_id salt created_at
                            updated_at now
  = Ok (Some {| AuthResponse.success := true;
                AuthResponse.token :=
                  UserService.create_access_token_for_user settings now user;
                AuthResponse.user := (new_id, RegisterRequest.email user_data)
             |},
        {| users := users db ++ [user]; tasks := tasks db |}).
Proof.
  intros Hlen Hemail Hid Hhash user.
  unfold UserService.register_user. rewrite Hemail.
  unfold UserCreate.new.
  pose proof (len_le_length (RegisterRequest.email user_data)).
  rewrite (proj2 (Z.ltb_ge _ _)) by lia. simpl.
  unfold DatabaseService.create_user. simpl. rewrite Hhash. simpl.
  unfold DatabaseService.insert_user. simpl.
  unfold DatabaseService.get_user_by_id in Hid.
  unfold DatabaseService.get_user_by_email in Hemail.
  rewrite (find_none_existsb _ _ Hid), (find_none_existsb _ _ Hemail).
  reflexivity.
Qed.

(** Register, then log in.  When the email is well formed and free, the
    drawn identifier is new and the hash that is stored fits its column and
    verifies the password, registration creates the active account and
    returns a token for it; from then on a login with the same email and password succeeds
    and returns a token for the same account, and the access guard resolves
    the account's tokens to the row that was created. *)
Theorem register_then_login db user_data new_id salt created_at updated_at
    now hashed :
  validation.validate_email_format (RegisterRequest.email user_data) = true ->
  Z.of_nat (String.length (RegisterRequest.email user_data)) <= 255 ->
  DatabaseService.get_user_by_email db (RegisterRequest.email user_data)
  = None ->
  DatabaseService.get_user_by_id db new_id = None ->
  password.hash_password salt (RegisterRequest.password user_data)
  = Ok hashed ->
  Z.of_nat (String.length hashed) <= 255 ->
  password.verify_password (RegisterRequest.password user_data) hashed
  = Ok true ->
  let user :=
    {| User.id := new_id;
       User.email := RegisterRequest.email user_data;
       User.hashed_password := hashed;
       User.is_active := true;
       User.created_at := created_at;
       User.updated_at := updated_at |} in
  let db' := {| users := users db ++ [user]; tasks := tasks db |} in
  let response (t : Z) :=
    {| AuthResponse.success := true;
       AuthResponse.token :=
         UserService.create_access_token_for_user settings t user;
       AuthResponse.user := (new_id, RegisterRequest.email user_data) |} in
  api_auth.register_user settings db user_data new_id salt created_at
                         updated_at now
  = Ok (response now, db')
  /\ (forall later,
        api_auth.login_user settings db' later
          {| LoginRequest.email := RegisterRequest.email user_data;
             LoginRequest.password := RegisterRequest.password user_data |}
        = Ok (response later))
  /\ (0 < JWT_EXPIRATION_HOURS settings ->
      forall later,
        deps.get_current_user settings db' later
          (AuthResponse.token (response later))
        = Ok user).
Proof.
  intros Hfmt Hlen Hemail Hid Hhash Hfit Hver user db' response.
  assert (DatabaseService.get_user_by_email db'
            (RegisterRequest.email user_data) = Some user) as Hfound.
  { apply find_app_fresh; [ exact Hemail | ].
    simpl. by rewrite bool_decide_eq_true_2. }
  assert (DatabaseService.get_user_by_id db' new_id = Some user) as Hfound'.
  { apply find_app_fresh; [ exact Hid | ].
    simpl. by rewrite bool_decide_eq_true_2. }
  split; [ | split ].
  - unfold api_auth.register_user. rewrite Hfmt. simpl.
    rewrite (register_user_fresh db user_data new_id salt created_at
               updated_at now hashed) by done.
    reflexivity.
  - intros later. unfold api_auth.login_user. simpl. rewrite Hfmt. simpl.
    unfold UserService.authenticate_user. simpl.
    rewrite Hfound. simpl. rewrite Hver. reflexivity.
  - intros Hpos later. simpl.
    apply guard_accepts_valid_token; [ | exact Hfound' | reflexivity ].
    unfold UserService.create_access_token_for_user.
    apply (create_then_verify settings later later new_id
             (RegisterRequest.email user_data) None None).
    simpl.
    pose proof (timegm_lower
                  (later + datetime.hours (JWT_EXPIRATION_HOURS settings))).
    unfold datetime.hours, datetime.second in *. lia.
Qed.

End account_extras.

Section account_life.
Context `{Hmac} `{Bcrypt} `{BcryptHasher}.
Variable settings : Settings.

Lemma get_user_by_id_commit db user user' :
  DatabaseService.get_user_by_id db (User.id user') = Some user ->
  DatabaseService.get_user_by_id (DatabaseService.commit_user db user')
                                 (User.id user')
  = Some user'.
Proof.
  unfold DatabaseService.get_user_by_id, DatabaseService.commit_user. simpl.
  induction (users db) as [ | r l IH]; simpl; [ discriminate | ].
  destruct (bool_decide (User.id r = User.id user')) eqn:Hr.
  - intros _. by rewrite bool_decide_eq_true_2.
  - intros Hf. rewrite Hr. by apply IH.
Qed.


Lemma get_user_by_email_commit db user user' :
  DatabaseService.get_user_by_email db (User.email user') = Some user ->
  User.id user = User.id user' ->
  DatabaseService.get_user_by_email (DatabaseService.commit_user db user')
                                    (User.email user')
  = Some user'.
Proof.
  unfold DatabaseService.get_user_by_email, DatabaseService.commit_user.
  simpl. intros Hf Hid.
  induction (users db) as [ | r l IH]; simpl in *; [ discriminate | ].
  destruct (bool_decide (User.id r = User.id user')) eqn:Hr.
  - by rewrite bool_decide_eq_true_2.
  - destruct (bool_decide (User.email r = User.email user')) eqn:He.
    + injection Hf as ->. apply bool_decide_eq_false_1 in Hr. done.
    + by apply IH.
Qed.


(** Reactivation undoes it: after [deactivate_user] then [activate_user],
    the table gives for the id the row it gave before, for an account that
    was active. *)
Theorem deactivate_then_activate db user_id user :
  DatabaseService.get_user_by_id db user_id = Some user ->
  User.is_active user = true ->
  exists db' db'',
    UserService.deactivate_user db user_id = (true, db')
    /\ UserService.activate_user db' user_id = (true, db'')
    /\ DatabaseService.get_user_by_id db'' user_id = Some user.
Proof.
  intros Hu Ha.
  pose proof (get_user_by_id_Some _ _ _ Hu) as [_ Hid]. subst user_id.
  unfold UserService.deactivate_user. rewrite Hu.
  eexists. eexists. split; [ reflexivity | ].
  pose proof (get_user_by_id_commit db user
                (UserService.set_is_active false user) Hu) as Hd.
  simpl in Hd.
  unfold UserService.activate_user. rewrite Hd.
  split; [ reflexivity | ].
  assert (UserService.set_is_active true
            (UserService.set_is_active false user) = user) as Hback.
  { destruct user. simpl in *. by subst. }
  rewrite Hback.
  apply (get_user_by_id_commit _ (UserService.set_is_active false user)).
  exact Hd.
Qed.

(** Changing the password: when the account is the row the table gives for
    its id and for its email, and the new hash fits its column and verifies
    the new password,
    [update_user_password] succeeds and a login with the new password then
    returns a token for the account, which is otherwise unchanged. *)
Theorem update_password_then_login db user new_password salt hashed now :
  DatabaseService.get_user_by_id db (User.id user) = Some user ->
  DatabaseService.get_user_by_email db (User.email user) = Some user ->
  User.is_active user = true ->
  password.hash_password salt new_password = Ok hashed ->
  Z.of_nat (String.length hashed) <= 255 ->
  password.verify_password new_password hashed = Ok true ->
  let user' := UserService.set_hashed_password hashed user in
  exists db',
    UserService.update_user_password db (User.id user) new_password salt
    = Ok (true, db')
    /\ DatabaseService.get_user_by_id db' (User.id user) = Some user'
    /\ UserService.authenticate_user settings db' now
         {| LoginRequest.email := User.email user;
            LoginRequest.password := new_password |}
       = Ok (Some {| AuthResponse.success := true;
                     AuthResponse.token :=
                       UserService.create_access_token_for_user settings now
                                                                user;
                     AuthResponse.user := (User.id user, User.email user) |}).
Proof.
  intros Hid Hemail Ha Hhash Hfit Hver user'. subst user'.
  unfold UserService.update_user_password. rewrite Hid, Hhash. simpl.
  eexists. split; [ reflexivity | ].
  split.
  - apply (get_user_by_id_commit db user
             (UserService.set_hashed_password hashed user)).
    exact Hid.
  - pose proof (get_user_by_email_commit db user
                  (UserService.set_hashed_password hashed user)
                  Hemail eq_refl) as He.
    unfold UserService.authenticate_user.
    cbn [LoginRequest.email LoginRequest.password].
    change (User.email user)
      with (User.email (UserService.set_hashed_password hashed user)) at 1.
    rewrite He. simpl. rewrite Hver. simpl. rewrite Ha. reflexivity.
Qed.

End account_life.

Section user_table_invariants.
Context `{Hmac} `{Bcrypt} `{BcryptHasher}.
Variable settings : Settings.

Lemma existsb_false_not_in {A} (f : A -> string) (x : string) (l : list A) :
  existsb (fun a => bool_decide (f a = x)) l = false -> x ∉ f <$> l.
Proof.
  induction l as [ | a l IH]; simpl; intros Hex; [ set_solver | ].
  apply orb_false_iff in Hex as [Ha Hl].
  apply bool_decide_eq_false_1 in Ha.
  rewrite not_elem_of_cons. split; [ congruence | by apply IH ].
Qed.

Lemma NoDup_fmap_snoc {A} (f : A -> string) (l : list A) (a : A) :
  NoDup (f <$> l) -> f a ∉ f <$> l -> NoDup (f <$> (l ++ [a])%list).
Proof.
  intros Hnd Hnin. rewrite fmap_app. apply NoDup_app.
  split; [ done | ]. split; [ | apply NoDup_singleton ].
  intros x Hx Hx'. simpl in Hx'.
  apply list_elem_of_singleton in Hx'. by subst.
Qed.

Lemma NoDup_fmap_eq {A} (f : A -> string) (l : list A) (a b : A) :
  NoDup (f <$> l) -> a ∈ l -> b ∈ l -> f a = f b -> a = b.
Proof.
  induction l as [ | c l IH]; simpl; intros Hnd Ha Hb Hf; [ set_solver | ].
  apply NoDup_cons in Hnd as [Hc Hnd].
  apply elem_of_cons in Ha as [-> | Ha]; apply elem_of_cons in Hb as [-> | Hb].
  - done.
  - exfalso. apply Hc. rewrite Hf. by apply list_elem_of_fmap_2.
  - exfalso. apply Hc. rewrite <- Hf. by apply list_elem_of_fmap_2.
  - by apply IH.
Qed.

Lemma commit_user_keeps_columns db user user' :
  user_ids_unique db ->
  DatabaseService.get_user_by_id db (User.id user') = Some user ->
  User.email user' = User.email user ->
  User.id <$> users (DatabaseService.commit_user db user')
  = User.id <$> users db
  /\ User.email <$> users (DatabaseService.commit_user db user')
     = User.email <$> users db.
Proof.
  intros Hnd Hu He.
  apply get_user_by_id_Some in Hu as [Hin Hid].
  unfold DatabaseService.commit_user. simpl.
  rewrite <- !list_fmap_compose.
  split; apply list_fmap_ext; intros i r Hr; simpl.
  - destruct (bool_decide (User.id r = User.id user')) eqn:Hb; [ | done ].
    by apply bool_decide_eq_true_1 in Hb.
  - destruct (bool_decide (User.id r = User.id user')) eqn:Hb; [ | done ].
    apply bool_decide_eq_true_1 in Hb.
    assert (r = user) as ->.
    { apply (NoDup_fmap_eq User.id (users db)); [ done | | done | congruence ].
      by eapply list_elem_of_lookup_2. }
    done.
Qed.

(** The uniqueness of the ids and of the emails of the users is kept by
    registration, by deactivation and by activation: whatever they return,
    a table without duplicates is left without duplicates. *)
Theorem user_table_stays_unique db :
  user_ids_unique db ->
  user_emails_unique db ->
  (forall user_data new_id salt created_at updated_at now r db',
     UserService.register_user settings db user_data new_id salt created_at
                               updated_at now = Ok (r, db') ->
     user_ids_unique db' /\ user_emails_unique db')
  /\ (forall user_id ok db',
        UserService.deactivate_user db user_id = (ok, db') ->
        user_ids_unique db' /\ user_emails_unique db')
  /\ (forall user_id ok db',
        UserService.activate_user db user_id = (ok, db') ->
        user_ids_unique db' /\ user_emails_unique db').
Proof.
  intros Hids Hemails. split; [ | split ].
  - intros user_data new_id salt created_at updated_at now r db' Hr.
    unfold UserService.register_user in Hr.
    destruct (DatabaseService.get_user_by_email db _);
      [ by injection Hr as <- <- | ].
    unfold UserCreate.new in Hr.
    destruct (255 <? _); simpl in Hr; [ discriminate | ].
    unfold DatabaseService.create_user in Hr. simpl in Hr.
    destruct (password.hash_password salt _) as [hashed | e]; simpl in Hr;
      [ | discriminate ].
    unfold DatabaseService.insert_user in Hr. simpl in Hr.
    destruct (existsb _ (users db)) eqn:Hex1; simpl in Hr; [ discriminate | ].
    destruct (existsb _ (users db)) eqn:Hex2 in Hr; simpl in Hr;
      [ discriminate | ].
    injection Hr as <- <-.
    unfold user_ids_unique, user_emails_unique. simpl. split.
    + apply NoDup_fmap_snoc; [ done | ].
      by apply (existsb_false_not_in User.id).
    + apply NoDup_fmap_snoc; [ done | ].
      by apply (existsb_false_not_in User.email).
  - intros user_id ok db' Hd. unfold UserService.deactivate_user in Hd.
    destruct (DatabaseService.get_user_by_id db user_id) as [user | ] eqn:Hu;
      injection Hd as <- <-; [ | done ].
    pose proof (get_user_by_id_Some _ _ _ Hu) as [_ <-].
    destruct (commit_user_keeps_columns db user
                (UserService.set_is_active false user) Hids Hu eq_refl)
      as [Hi He].
    unfold user_ids_unique, user_emails_unique. by rewrite Hi, He.
  - intros user_id ok db' Hd. unfold UserService.activate_user in Hd.
    destruct (DatabaseService.get_user_by_id db user_id) as [user | ] eqn:Hu;
      injection Hd as <- <-; [ | done ].
    pose proof (get_user_by_id_Some _ _ _ Hu) as [_ <-].
    destruct (commit_user_keeps_columns db user
                (UserService.set_is_active true user) Hids Hu eq_refl)
      as [Hi He].
    unfold user_ids_unique, user_emails_unique. by rewrite Hi, He.
Qed.

End user_table_invariants.

(** *** The token service *)

Section token_service_extras.
Context {R : Type} `{RedisClient R}.

(** None of the four methods of the token service raises, whatever the store
    does.  The two that write report a store that raised by returning false
    and leave the service as it was; the two that read then answer false. *)
Theorem token_service_never_raises (self : TokenService.t R) now tok user_id
    expiration :
  (exists ok self',
     TokenService.blacklist_token self now tok expiration = Ok (ok, self')
     /\ (ok = false -> self' = self))
  /\ (exists ok self',
        TokenService.blacklist_user_tokens self now user_id expiration
        = Ok (ok, self')
        /\ (ok = false -> self' = self))
  /\ (exists revoked,
        TokenService.is_token_blacklisted self now tok = Ok revoked)
  /\ (exists logged_out,
        TokenService.is_user_logged_out self now user_id = Ok logged_out).
Proof.
  unfold TokenService.blacklist_token, TokenService.blacklist_user_tokens,
    TokenService.is_token_blacklisted, TokenService.is_user_logged_out.
  destruct (TokenService.redis_client self) as [r | ]; simpl.
  - split; [ | split; [ | split ] ].
    + destruct (setex r now (blacklisted_token tok) _ "true"); simpl;
        eexists _, _; (split; [ reflexivity | ]); [ discriminate | done ].
    + destruct (setex r now (user_logout user_id) _ "true"); simpl;
        eexists _, _; (split; [ reflexivity | ]); [ discriminate | done ].
    + destruct (exists_ r now (blacklisted_token tok)); simpl; eauto.
    + destruct (exists_ r now (user_logout user_id)); simpl; eauto.
  - split; [ | split; [ | split ] ].
    + eexists _, _. split; [ reflexivity | discriminate ].
    + eexists _, _. split; [ reflexivity | discriminate ].
    + eauto.
    + eauto.
Qed.

(** The registry in memory.  After [blacklist_token] the tokens reported as
    revoked are the token just recorded and the tokens that were reported
    before, at every later instant: an entry neither touches another token
    nor ever expires, whatever lifetime was asked for. *)
Theorem blacklist_in_memory_frame (self : TokenService.t R) now tok
    expiration :
  TokenService.redis_client self = None ->
  exists self',
    TokenService.blacklist_token self now tok expiration = Ok (true, self')
    /\ TokenService.redis_client self' = None
    /\ forall later other,
         TokenService.is_token_blacklisted self' later other
         = Ok (bool_decide (other = tok)
               || bool_decide (other ∈ TokenService._blacklisted_tokens self))
         /\ TokenService.is_token_blacklisted self later other
            = Ok (bool_decide
                    (other ∈ TokenService._blacklisted_tokens self)).
Proof.
  intros Hmem.
  unfold TokenService.blacklist_token, TokenService.is_token_blacklisted.
  rewrite Hmem. simpl.
  eexists. split; [ reflexivity | ]. split; [ reflexivity | ].
  intros later other. simpl. split; [ | reflexivity ].
  f_equal.
  destruct (decide (other = tok)) as [-> | Hne].
  - rewrite (bool_decide_eq_true_2 (tok = tok)) by done.
    rewrite bool_decide_eq_true_2; [ done | ].
    by apply elem_of_union_l, elem_of_singleton.
  - rewrite (bool_decide_eq_false_2 (other = tok)) by done. simpl.
    apply bool_decide_ext. rewrite elem_of_union, elem_of_singleton.
    tauto.
Qed.

End token_service_extras.

(** *** Tasks: what the writes do *)

Section task_extras.

Lemma find_map_replace {A} (p same : A -> bool) (a' : A) (l : list A) a :
  List.find p l = Some a ->
  same a = true ->
  p a' = true ->
  List.find p (List.map (fun r => if same r then a' else r) l) = Some a'.
Proof.
  intros Hf Hs Hp.
  induction l as [ | r l IH]; simpl in *; [ discriminate | ].
  destruct (same r) eqn:Hr.
  - by rewrite Hp.
  - destruct (p r) eqn:Hpr; [ | by apply IH ].
    injection Hf as ->. congruence.
Qed.

Lemma get_task_by_id_commit db task_id user_id t0 t' :
  TaskService.get_task_by_id db task_id user_id = Some t0 ->
  Task.id t' = Task.id t0 ->
  Task.user_id t' = Task.user_id t0 ->
  TaskService.get_task_by_id (TaskService.commit_task db t') task_id user_id
  = Some t'.
Proof.
  intros Hg Hid Hu.
  pose proof (get_task_by_id_Some _ _ _ _ Hg) as (_ & Hid0 & Hu0).
  unfold TaskService.get_task_by_id, TaskService.commit_task in *. simpl.
  apply (find_map_replace _
           (fun r => bool_decide (Task.id r = Task.id t')) t' _ t0 Hg).
  - by rewrite bool_decide_eq_true_2.
  - rewrite !bool_decide_eq_true_2 by congruence. done.
Qed.

Lemma set_updated_at_keeps now t :
  Task.id (TaskService.set_updated_at now t) = Task.id t
  /\ Task.user_id (TaskService.set_updated_at now t) = Task.user_id t
  /\ Task.created_at (TaskService.set_updated_at now t) = Task.created_at t
  /\ Task.updated_at (TaskService.set_updated_at now t) = now.
Proof. done. Qed.

Lemma apply_update_keeps_created task_update task task' :
  TaskService.apply_update task_update task = Some task' ->
  Task.created_at task' = Task.created_at task.
Proof.
  unfold TaskService.apply_update. intros Hup.
  destruct (TaskUpdate.title task_update) as [[title | ] | ],
    (TaskUpdate.priority task_update) as [[priority | ] | ],
    (TaskUpdate.completed task_update) as [[completed | ] | ];
    simpl in Hup; simplify_eq; done.
Qed.

(** Update, then read.  When an update succeeds, the task it returns is what
    a read of the same id by the same user returns afterwards; it has the id
    and the owner of the task that was there, its creation instant, and the
    instant of the update as [updated_at]; the users' table is untouched. *)
Theorem update_then_get db now task_id task_update current_user task db' :
  api_tasks.update_task db now task_id task_update current_user
  = Ok (task, db') ->
  api_tasks.get_task db' task_id current_user = Ok task
  /\ users db' = users db
  /\ Task.updated_at task = now
  /\ exists before,
       api_tasks.get_task db task_id current_user = Ok before
       /\ Task.id task = Task.id before
       /\ Task.user_id task = Task.user_id before
       /\ Task.created_at task = Task.created_at before.
Proof.
  unfold api_tasks.update_task, api_tasks.get_task, TaskService.update_task.
  intros Hok.
  destruct (TaskService.get_task_by_id db task_id (User.id current_user))
    as [t0 | ] eqn:Hget; [ | discriminate ].
  destruct (TaskService.apply_update task_update t0) as [t1 | ] eqn:Hup;
    [ | discriminate ].
  simpl in Hok. injection Hok as <- <-.
  pose proof (apply_update_keeps_key _ _ _ Hup) as [Hk1 Hk2].
  pose proof (apply_update_keeps_created _ _ _ Hup) as Hk3.
  rewrite (get_task_by_id_commit db task_id (User.id current_user) t0)
    by done.
  split; [ done | split; [ done | split; [ done | ] ] ].
  exists t0. done.
Qed.

Lemma find_filter_none {A} (p keep : A -> bool) (l : list A) :
  (forall a, p a = true -> keep a = false) ->
  List.find p (List.filter keep l) = None.
Proof.
  intros Hpk. induction l as [ | r l IH]; simpl; [ done | ].
  destruct (keep r) eqn:Hk; simpl; [ | exact IH ].
  destruct (p r) eqn:Hp; [ | exact IH ].
  apply Hpk in Hp. congruence.
Qed.

(** Delete, then read.  When a delete succeeds, the id is gone for its
    owner: a read, an update and a second delete all answer not found; the
    rows left are exactly the rows that had another id, and the users'
    table is untouched. *)
Theorem delete_then_get db now task_id task_update current_user msg db' :
  api_tasks.delete_task db task_id current_user = Ok (msg, db') ->
  api_tasks.get_task db' task_id current_user = Raise api_tasks.not_found
  /\ api_tasks.update_task db' now task_id task_update current_user
     = Raise api_tasks.not_found
  /\ api_tasks.delete_task db' task_id current_user
     = Raise api_tasks.not_found
  /\ users db' = users db
  /\ forall t, t ∈ tasks db' <-> t ∈ tasks db /\ Task.id t <> task_id.
Proof.
  unfold api_tasks.delete_task, TaskService.delete_task. intros Hok.
  destruct (TaskService.get_task_by_id db task_id (User.id current_user))
    as [t0 | ] eqn:Hget; [ | discriminate ].
  simpl in Hok. injection Hok as <- <-.
  pose proof (get_task_by_id_Some _ _ _ _ Hget) as (_ & Hid & _).
  assert (TaskService.get_task_by_id (TaskService.commit_delete db t0)
            task_id (User.id current_user) = None) as Hgone.
  { unfold TaskService.get_task_by_id, TaskService.commit_delete. simpl.
    apply find_filter_none. intros a Ha.
    apply andb_true_iff in Ha as [Ha _].
    apply bool_decide_eq_true_1 in Ha.
    rewrite bool_decide_eq_true_2 by congruence. done. }
  unfold api_tasks.get_task, api_tasks.update_task, TaskService.update_task.
  rewrite Hgone. simpl.
  split; [ done | split; [ done | split; [ done | split; [ done | ] ] ] ].
  intros t. unfold TaskService.commit_delete. simpl.
  rewrite list_elem_of_In, filter_In, <- list_elem_of_In.
  rewrite negb_true_iff, bool_decide_eq_false. rewrite Hid. done.
Qed.

End task_extras.

Section task_isolation.

Lemma filter_map_replace {A} (keep same : A -> bool) (a' : A) (l : list A) :
  keep a' = false ->
  (forall r, r ∈ l -> same r = true -> keep r = false) ->
  List.filter keep (List.map (fun r => if same r then a' else r) l)
  = List.filter keep l.
Proof.
  intros Ha. induction l as [ | r l IH]; simpl; intros Hl; [ done | ].
  rewrite IH by (intros; apply Hl; [ apply elem_of_cons; by right | done ]).
  destruct (same r) eqn:Hs.
  - rewrite Ha. rewrite (Hl r) by (done || (apply elem_of_cons; by left)). done.
  - done.
Qed.

Lemma commit_task_other_users db user_id t0 t' :
  task_ids_unique db ->
  t0 ∈ tasks db ->
  Task.user_id t0 = user_id ->
  Task.id t' = Task.id t0 ->
  Task.user_id t' = user_id ->
  other_users_tasks (TaskService.commit_task db t') user_id
  = other_users_tasks db user_id.
Proof.
  intros Hnd Hin Hu0 Hid Hu'.
  unfold other_users_tasks, TaskService.commit_task. simpl.
  apply (filter_map_replace _
           (fun r => bool_decide (Task.id r = Task.id t'))).
  - by rewrite bool_decide_eq_true_2.
  - intros r Hr Hsame. apply bool_decide_eq_true_1 in Hsame.
    assert (r = t0) as ->.
    { apply (NoDup_fmap_eq Task.id (tasks db)); [ done .. | congruence ]. }
    by rewrite bool_decide_eq_true_2.
Qed.

Lemma filter_filter_same {A} (keep drop : A -> bool) (l : list A) :
  (forall r, r ∈ l -> drop r = false -> keep r = false) ->
  List.filter keep (List.filter drop l) = List.filter keep l.
Proof.
  induction l as [ | r l IH]; simpl; intros Hl; [ done | ].
  rewrite <- IH by (intros; apply Hl; [ apply elem_of_cons; by right | done ]).
  destruct (drop r) eqn:Hd; simpl; [ done | ].
  rewrite (Hl r) by (done || (apply elem_of_cons; by left)). done.
Qed.

(** Write isolation.  With unique task ids, an update, a patch or a delete
    that a user performs leaves the rows of every other user exactly as they
    were, in the same order. *)
Theorem writes_leave_other_users_tasks db now task_id current_user :
  task_ids_unique db ->
  (forall task_update task db',
     api_tasks.update_task db now task_id task_update current_user
     = Ok (task, db') ->
     other_users_tasks db' (User.id current_user)
     = other_users_tasks db (User.id current_user))
  /\ (forall task_patch task db',
        api_tasks.patch_task db now task_id task_patch current_user
        = Ok (task, db') ->
        other_users_tasks db' (User.id current_user)
        = other_users_tasks db (User.id current_user))
  /\ (forall msg db',
        api_tasks.delete_task db task_id current_user = Ok (msg, db') ->
        other_users_tasks db' (User.id current_user)
        = other_users_tasks db (User.id current_user)).
Proof.
  intros Hnd. split; [ | split ].
  - intros task_update task db' Hok.
    unfold api_tasks.update_task, TaskService.update_task in Hok.
    destruct (TaskService.get_task_by_id db task_id (User.id current_user))
      as [t0 | ] eqn:Hget; [ | discriminate ].
    destruct (TaskService.apply_update task_update t0) as [t1 | ] eqn:Hup;
      [ | discriminate ].
    simpl in Hok. injection Hok as <- <-.
    apply get_task_by_id_Some in Hget as (Hin & _ & Hu).
    apply apply_update_keeps_key in Hup as [Hk1 Hk2].
    apply (commit_task_other_users db _ t0); simpl; congruence.
  - intros task_patch task db' Hok.
    unfold api_tasks.patch_task, TaskService.patch_task in Hok.
    destruct (TaskService.get_task_by_id db task_id (User.id current_user))
      as [t0 | ] eqn:Hget; [ | discriminate ].
    destruct (TaskService.apply_patch task_patch t0) as [t1 | ] eqn:Hup;
      [ | discriminate ].
    simpl in Hok. injection Hok as <- <-.
    apply get_task_by_id_Some in Hget as (Hin & _ & Hu).
    assert (Task.id t1 = Task.id t0 /\ Task.user_id t1 = Task.user_id t0)
      as [Hk1 Hk2].
    { unfold TaskService.apply_patch in Hup.
      destruct (TaskPatch.completed task_patch) as [[c | ] | ];
        simpl in Hup; simplify_eq; done. }
    apply (commit_task_other_users db _ t0); simpl; congruence.
  - intros msg db' Hok.
    unfold api_tasks.delete_task, TaskService.delete_task in Hok.
    destruct (TaskService.get_task_by_id db task_id (User.id current_user))
      as [t0 | ] eqn:Hget; [ | discriminate ].
    simpl in Hok. injection Hok as <- <-.
    apply get_task_by_id_Some in Hget as (Hin & _ & Hu).
    unfold other_users_tasks, TaskService.commit_delete. simpl.
    apply filter_filter_same. intros r Hr Hdrop.
    apply negb_false_iff, bool_decide_eq_true_1 in Hdrop.
    assert (r = t0) as ->.
    { apply (NoDup_fmap_eq Task.id (tasks db)); done. }
    by rewrite bool_decide_eq_true_2.
Qed.

End task_isolation.

Section task_creation.

Lemma find_app_old {A} (f : A -> bool) (l : list A) (a : A) :
  f a = false -> List.find f (l ++ [a]) = List.find f l.
Proof.
  intros Ha. induction l as [ | b l IH]; simpl.
  - by rewrite Ha.
  - destruct (f b); [ done | exact IH ].
Qed.

Lemma existsb_false_find_none {A} (f g : A -> bool) (l : list A) :
  existsb f l = false -> (forall a, g a = true -> f a = true) ->
  List.find g l = None.
Proof.
  intros Hex Hgf. induction l as [ | a l IH]; simpl in *; [ done | ].
  apply orb_false_iff in Hex as [Ha Hl].
  destruct (g a) eqn:Hg; [ | by apply IH ].
  apply Hgf in Hg. congruence.
Qed.

(** Create, then read.  When a creation succeeds, the new row is appended to
    the table with the drawn id and the creator as owner; its creator reads
    it back, any other user gets not found for it, and every other id reads
    as before for everyone. *)
Theorem create_then_get db task_create current_user new_id created_at
    updated_at task db' :
  api_tasks.create_task db task_create current_user new_id created_at
                        updated_at
  = Ok (task, db') ->
  tasks db' = (tasks db ++ [task])%list
  /\ users db' = users db
  /\ Task.id task = new_id
  /\ Task.user_id task = User.id current_user
  /\ api_tasks.get_task db' new_id current_user = Ok task
  /\ (forall other,
        User.id other <> User.id current_user ->
        api_tasks.get_task db' new_id other = Raise api_tasks.not_found)
  /\ (forall task_id user,
        task_id <> new_id ->
        api_tasks.get_task db' task_id user
        = api_tasks.get_task db task_id user).
Proof.
  unfold api_tasks.create_task, TaskService.create_task,
    TaskService.insert_task. simpl. intros Hok.
  destruct (existsb _ (tasks db)) eqn:Hfresh; simpl in Hok;
    [ discriminate | ].
  destruct (existsb _ (users db)) eqn:Howner; simpl in Hok;
    [ | discriminate ].
  injection Hok as <- <-. simpl.
  split; [ done | split; [ done | split; [ done | split; [ done | ] ] ] ].
  unfold api_tasks.get_task, TaskService.get_task_by_id. simpl.
  split; [ | split ].
  - rewrite find_app_fresh.
    + done.
    + eapply existsb_false_find_none; [ exact Hfresh | ].
      intros a Ha. by apply andb_true_iff in Ha as [Ha _].
    + simpl. by rewrite !bool_decide_eq_true_2.
  - intros other Hne. rewrite find_app_old.
    + erewrite existsb_false_find_none; [ done | exact Hfresh | ].
      intros a Ha. by apply andb_true_iff in Ha as [Ha _].
    + simpl. rewrite (bool_decide_eq_false_2 (_ = User.id other)) by done.
      by rewrite andb_false_r.
  - intros task_id user Hne. rewrite find_app_old; [ done | ].
    simpl. by rewrite (bool_decide_eq_false_2 (new_id = task_id)).
Qed.

Lemma NoDup_fmap_filter {A} (f : A -> string) (keep : A -> bool)
    (l : list A) :
  NoDup (f <$> l) -> NoDup (f <$> List.filter keep l).
Proof.
  induction l as [ | a l IH]; simpl; intros Hnd; [ done | ].
  apply NoDup_cons in Hnd as [Ha Hnd].
  destruct (keep a); simpl; [ | by apply IH ].
  apply NoDup_cons. split; [ | by apply IH ].
  intros Hin. apply Ha.
  apply list_elem_of_fmap in Hin as (b & -> & Hb).
  apply list_elem_of_fmap_2.
  apply list_elem_of_In in Hb. apply filter_In in Hb as [Hb _].
  by apply list_elem_of_In.
Qed.

Lemma commit_task_ids db t' :
  Task.id <$> tasks (TaskService.commit_task db t') = Task.id <$> tasks db.
Proof.
  unfold TaskService.commit_task. simpl.
  rewrite <- list_fmap_compose. apply list_fmap_ext. intros i r _. simpl.
  destruct (bool_decide (Task.id r = Task.id t')) eqn:Hb; [ | done ].
  by apply bool_decide_eq_true_1 in Hb.
Qed.

(** The uniqueness of the task ids is an invariant of the four writes: a
    creation, an update, a patch or a delete that succeeds on a table
    without duplicate ids leaves a table without duplicate ids. *)
Theorem task_ids_stay_unique db now current_user :
  task_ids_unique db ->
  (forall task_create new_id created_at updated_at task db',
     api_tasks.create_task db task_create current_user new_id created_at
                           updated_at = Ok (task, db') ->
     task_ids_unique db')
  /\ (forall task_id task_update task db',
        api_tasks.update_task db now task_id task_update current_user
        = Ok (task, db') ->
        task_ids_unique db')
  /\ (forall task_id task_patch task db',
        api_tasks.patch_task db now task_id task_patch current_user
        = Ok (task, db') ->
        task_ids_unique db')
  /\ (forall task_id msg db',
        api_tasks.delete_task db task_id current_user = Ok (msg, db') ->
        task_ids_unique db').
Proof.
  intros Hnd. unfold task_ids_unique in *. split; [ | split; [ | split ] ].
  - intros task_create new_id created_at updated_at task db' Hok.
    unfold api_tasks.create_task, TaskService.create_task,
      TaskService.insert_task in Hok. simpl in Hok.
    destruct (existsb _ (tasks db)) eqn:Hfresh; simpl in Hok;
      [ discriminate | ].
    destruct (existsb _ (users db)); simpl in Hok; [ | discriminate ].
    injection Hok as <- <-. simpl.
    apply NoDup_fmap_snoc; [ done | ].
    by apply (existsb_false_not_in Task.id).
  - intros task_id task_update task db' Hok.
    unfold api_tasks.update_task, TaskService.update_task in Hok.
    destruct (TaskService.get_task_by_id db task_id (User.id current_user));
      [ | discriminate ].
    destruct (TaskService.apply_update task_update t); [ | discriminate ].
    simpl in Hok. injection Hok as <- <-. by rewrite commit_task_ids.
  - intros task_id task_patch task db' Hok.
    unfold api_tasks.patch_task, TaskService.patch_task in Hok.
    destruct (TaskService.get_task_by_id db task_id (User.id current_user));
      [ | discriminate ].
    destruct (TaskService.apply_patch task_patch t); [ | discriminate ].
    simpl in Hok. injection Hok as <- <-. by rewrite commit_task_ids.
  - intros task_id msg db' Hok.
    unfold api_tasks.delete_task, TaskService.delete_task in Hok.
    destruct (TaskService.get_task_by_id db task_id (User.id current_user));
      [ | discriminate ].
    simpl in Hok. injection Hok as <- <-.
    unfold TaskService.commit_delete. simpl. by apply NoDup_fmap_filter.
Qed.

End task_creation.

Section task_reads.

Lemma length_filter_le {A} (f g : A -> bool) (l : list A) :
  (forall a, f a = true -> g a = true) ->
  (length (List.filter f l) <= length (List.filter g l))%nat.
Proof.
  intros Hfg. induction l as [ | a l IH]; simpl; [ lia | ].
  destruct (f a) eqn:Hf.
  - rewrite (Hfg a Hf). simpl. lia.
  - destruct (g a); simpl; lia.
Qed.

Lemma length_filter_split {A} (f g h : A -> bool) (l : list A) :
  (forall a, f a = g a || h a) ->
  (forall a, g a && h a = false) ->
  length (List.filter f l)
  = (length (List.filter g l) + length (List.filter h l))%nat.
Proof.
  intros Hf Hgh. induction l as [ | a l IH]; simpl; [ done | ].
  specialize (Hf a). specialize (Hgh a).
  destruct (f a), (g a), (h a); simpl in *; try discriminate; lia.
Qed.

(** The statistics of a user's tasks add up: the total is the completed
    plus the pending, none of the four counts is negative, the overdue
    tasks are among the pending ones, and the pending count is the number
    of the user's tasks that are not completed. *)
Theorem get_task_stats_consistent db now user_id :
  let stats := TaskService.get_task_stats db now user_id in
  TaskService.total stats
  = TaskService.completed stats + TaskService.pending stats
  /\ 0 <= TaskService.completed stats
  /\ 0 <= TaskService.overdue stats <= TaskService.pending stats
  /\ TaskService.pending stats <= TaskService.total stats
  /\ TaskService.pending stats
     = Z.of_nat (length (List.filter
                           (fun t => bool_decide (Task.user_id t = user_id)
                                     && negb (Task.completed t))
                           (tasks db))).
Proof.
  unfold TaskService.get_task_stats. simpl.
  set (mine := fun t : Task.t => bool_decide (Task.user_id t = user_id)).
  set (done_ := fun t : Task.t =>
                  bool_decide (Task.user_id t = user_id)
                  && bool_decide (Task.completed t = true)).
  set (late := fun t : Task.t =>
                 bool_decide (Task.user_id t = user_id)
                 && bool_decide (Task.completed t = false)
                 && TaskService.due_before now t).
  set (open_ := fun t : Task.t =>
                  bool_decide (Task.user_id t = user_id)
                  && negb (Task.completed t)).
  assert (length (List.filter mine (tasks db))
          = (length (List.filter done_ (tasks db))
             + length (List.filter open_ (tasks db)))%nat) as Hsplit.
  { apply length_filter_split; intros t; unfold mine, done_, open_;
      destruct (bool_decide (Task.user_id t = user_id)),
        (Task.completed t); done. }
  assert (length (List.filter late (tasks db))
          <= length (List.filter open_ (tasks db)))%nat as Hlate.
  { apply length_filter_le. intros t. unfold late, open_.
    destruct (bool_decide (Task.user_id t = user_id)),
      (Task.completed t); simpl; done. }
  lia.
Qed.

(** The statistics of a user do not depend on the tasks of the others: two
    tables that hold the same rows for the user give the same counts. *)
Theorem get_task_stats_own_tasks_only db1 db2 now user_id :
  List.filter (fun t => bool_decide (Task.user_id t = user_id)) (tasks db1)
  = List.filter (fun t => bool_decide (Task.user_id t = user_id)) (tasks db2)
  ->
  TaskService.get_task_stats db1 now user_id
  = TaskService.get_task_stats db2 now user_id.
Proof.
  intros Heq. unfold TaskService.get_task_stats.
  assert (forall (g : Task.t -> bool) l,
            List.filter
              (fun t => bool_decide (Task.user_id t = user_id) && g t) l
            = List.filter g
                (List.filter
                   (fun t => bool_decide (Task.user_id t = user_id)) l))
    as Hnest.
  { intros g l. induction l as [ | a l IH]; simpl; [ done | ].
    destruct (bool_decide (Task.user_id a = user_id)); simpl;
      [ | exact IH ].
    destruct (g a); by rewrite IH. }
  rewrite (Hnest (fun t => bool_decide (Task.completed t = true))).
  rewrite (Hnest (fun t => bool_decide (Task.completed t = true)) (tasks db2)).
  assert (forall l,
            List.filter
              (fun t => bool_decide (Task.user_id t = user_id)
                        && bool_decide (Task.completed t = false)
                        && TaskService.due_before now t) l
            = List.filter
                (fun t => bool_decide (Task.completed t = false)
                          && TaskService.due_before now t)
                (List.filter
                   (fun t => bool_decide (Task.user_id t = user_id)) l))
    as Hnest3.
  { intros l. rewrite <- Hnest. apply filter_ext. intros a.
    by rewrite andb_assoc. }
  rewrite !Hnest3. by rewrite Heq.
Qed.

(** The ownership check and the reads agree: [verify_task_ownership] holds
    exactly when a task with that id owned by that user is in the table,
    which is exactly when the read of the id by the user succeeds; the
    three resource predicates are the equality of owner and user. *)
Theorem verify_task_ownership_spec db task_id user :
  (authz.verify_task_ownership db task_id (User.id user) = true
   <-> owned_task_exists db task_id (User.id user))
  /\ authz.verify_task_ownership db task_id (User.id user)
     = is_ok (api_tasks.get_task db task_id user)
  /\ forall owner_id,
       authz.can_read_resource owner_id (User.id user)
       = bool_decide (owner_id = User.id user)
       /\ authz.can_modify_resource owner_id (User.id user)
          = authz.can_read_resource owner_id (User.id user)
       /\ authz.can_delete_resource owner_id (User.id user)
          = authz.can_read_resource owner_id (User.id user).
Proof.
  split; [ | split; [ | done ] ].
  - unfold authz.verify_task_ownership.
    fold (TaskService.get_task_by_id db task_id (User.id user)).
    rewrite bool_decide_eq_true. split.
    + intros Hne.
      destruct (TaskService.get_task_by_id db task_id (User.id user))
        as [t | ] eqn:Hg; [ | done ].
      exists t. by apply get_task_by_id_Some.
    + intros Hown. apply get_task_by_id_owned in Hown as [t ->]. done.
  - unfold authz.verify_task_ownership, api_tasks.get_task.
    fold (TaskService.get_task_by_id db task_id (User.id user)).
    destruct (TaskService.get_task_by_id db task_id (User.id user)); done.
Qed.

End task_reads.

Section task_completion.

(** Marking a task completed.  For an id its owner can read, the call
    succeeds; the task it returns is completed, differs from the task that
    was there in nothing else but [updated_at], and is what the owner reads
    afterwards; marking it again only moves [updated_at]. *)
Theorem mark_task_completed_then_get db now later task_id current_user
    before :
  api_tasks.get_task db task_id current_user = Ok before ->
  exists task db',
    TaskService.mark_task_completed db now task_id (User.id current_user)
    = Ok (Some task, db')
    /\ Task.completed task = true
    /\ task = TaskService.set_updated_at now
                {| Task.id := Task.id before;
                   Task.title := Task.title before;
                   Task.description := Task.description before;
                   Task.due_date := Task.due_date before;
                   Task.priority := Task.priority before;
                   Task.completed := true;
                   Task.user_id := Task.user_id before;
                   Task.created_at := Task.created_at before;
                   Task.updated_at := Task.updated_at before |}
    /\ api_tasks.get_task db' task_id current_user = Ok task
    /\ exists db'',
         TaskService.mark_task_completed db' later task_id
                                         (User.id current_user)
         = Ok (Some (TaskService.set_updated_at later task), db'').
Proof.
  unfold api_tasks.get_task. intros Hget.
  destruct (TaskService.get_task_by_id db task_id (User.id current_user))
    as [t0 | ] eqn:Hg; [ | discriminate ].
  injection Hget as <-.
  unfold TaskService.mark_task_completed, TaskService.patch_task.
  rewrite Hg. simpl.
  eexists _, _. split; [ reflexivity | ].
  split; [ reflexivity | ]. split; [ reflexivity | ].
  erewrite (get_task_by_id_commit db task_id (User.id current_user) t0);
    [ | exact Hg | reflexivity | reflexivity ].
  split; [ reflexivity | ].
  simpl. eexists. reflexivity.
Qed.

End task_completion.

(** *** Sanitizing input *)

Section sanitize.

Lemma contains_append c a b :
  contains c (a +:+ b) = contains c a || contains c b.
Proof.
  induction a as [ | d a IH]; simpl; [ done | ].
  rewrite IH. by rewrite orb_assoc.
Qed.

Lemma replace_char_removes old new s :
  contains old new = false ->
  contains old (validation.replace_char old new s) = false.
Proof.
  intros Hnew. induction s as [ | d s IH]; simpl; [ done | ].
  destruct (bool_decide (d = old)) eqn:Hd.
  - by rewrite contains_append, Hnew, IH.
  - simpl. by rewrite Hd, IH.
Qed.

Lemma replace_char_keeps_absent c old new s :
  contains c new = false ->
  contains c s = false ->
  contains c (validation.replace_char old new s) = false.
Proof.
  intros Hnew. induction s as [ | d s IH]; simpl; [ done | ].
  intros Hs. apply orb_false_iff in Hs as [Hd Hs].
  destruct (bool_decide (d = old)).
  - by rewrite contains_append, Hnew, IH.
  - simpl. by rewrite Hd, IH.
Qed.

Lemma replace_char_absent old new s :
  contains old s = false -> validation.replace_char old new s = s.
Proof.
  induction s as [ | d s IH]; simpl; [ done | ].
  intros Hs. apply orb_false_iff in Hs as [Hd Hs].
  by rewrite Hd, IH.
Qed.

Lemma sanitize_input_clean input_str c :
  c ∈ dangerous_chars -> contains c (validation.sanitize_input input_str) = false.
Proof.
  unfold dangerous_chars, validation.sanitize_input. intros Hc.
  repeat (apply elem_of_cons in Hc as [-> | Hc]);
    [ .. | by apply elem_of_nil in Hc ];
    repeat first
      [ apply replace_char_removes; reflexivity
      | apply replace_char_keeps_absent; [ reflexivity | ] ].
Qed.

(** What [sanitize_input] guarantees.  Its output holds none of the six
    characters it replaces; a string that holds none of them is returned as
    it is; so sanitizing twice is sanitizing once. *)
Theorem sanitize_input_spec input_str :
  (forall c, c ∈ dangerous_chars ->
             contains c (validation.sanitize_input input_str) = false)
  /\ ((forall c, c ∈ dangerous_chars -> contains c input_str = false) ->
      validation.sanitize_input input_str = input_str)
  /\ validation.sanitize_input (validation.sanitize_input input_str)
     = validation.sanitize_input input_str.
Proof.
  assert (forall s,
            (forall c, c ∈ dangerous_chars -> contains c s = false) ->
            validation.sanitize_input s = s) as Hsafe.
  { intros s Hs. unfold validation.sanitize_input.
    rewrite (replace_char_absent "<") by (apply Hs; set_solver).
    rewrite (replace_char_absent ">") by (apply Hs; set_solver).
    rewrite (replace_char_absent "034") by (apply Hs; set_solver).
    rewrite (replace_char_absent "'") by (apply Hs; set_solver).
    rewrite (replace_char_absent "/") by (apply Hs; set_solver).
    rewrite (replace_char_absent "\") by (apply Hs; set_solver).
    done. }
  split; [ apply sanitize_input_clean | ].
  split; [ apply Hsafe | ].
  apply Hsafe, sanitize_input_clean.
Qed.

End sanitize.

(** *** The format of an email *)

Section email_format.

Lemma append_nil_l (s : string) : EmptyString +:+ s = s.
Proof. reflexivity. Qed.

Lemma append_cons c (s1 s2 : string) :
  String c s1 +:+ s2 = String c (s1 +:+ s2).
Proof. reflexivity. Qed.

Lemma append_nil_inv s1 s2 :
  s1 +:+ s2 = EmptyString -> s1 = EmptyString /\ s2 = EmptyString.
Proof.
  destruct s1; rewrite ?append_nil_l, ?append_cons; [ done | discriminate ].
Qed.

Lemma append_cons_inv s1 s2 c s :
  s1 +:+ s2 = String c s ->
  (s1 = EmptyString /\ s2 = String c s)
  \/ exists s1', s1 = String c s1' /\ s = s1' +:+ s2.
Proof.
  destruct s1 as [ | d s1]; rewrite ?append_nil_l, ?append_cons;
    intros Heq; [ by left | ].
  injection Heq as -> <-. right. eauto.
Qed.

Lemma append_nil_r s : s +:+ EmptyString = s.
Proof.
  induction s as [ | c s IH]; rewrite ?append_nil_l, ?append_cons;
    [ done | by f_equal ].
Qed.

Lemma append_assoc (s1 s2 s3 : string) :
  (s1 +:+ s2) +:+ s3 = s1 +:+ (s2 +:+ s3).
Proof.
  induction s1 as [ | c s1 IH]; rewrite ?append_nil_l, ?append_cons;
    [ done | by f_equal ].
Qed.

Lemma matches_cat_inv r1 r2 s :
  matches (re.Cat r1 r2) s ->
  exists s1 s2, s = s1 +:+ s2 /\ matches r1 s1 /\ matches r2 s2.
Proof. intros Hm. inversion Hm; subst. eauto. Qed.

Lemma matches_alt_inv r1 r2 s :
  matches (re.Alt r1 r2) s -> matches r1 s \/ matches r2 s.
Proof. intros Hm. inversion Hm; subst; eauto. Qed.

Lemma matches_cls_inv p s :
  matches (re.Cls p) s -> exists c, s = String c EmptyString /\ p c = true.
Proof. intros Hm. inversion Hm; subst. eauto. Qed.

Lemma nullable_matches r : re.nullable r = true <-> matches r EmptyString.
Proof.
  split.
  - induction r; simpl; intros Hn; try discriminate.
    + constructor.
    + apply andb_true_iff in Hn as [H1 H2].
      apply (matches_cat _ _ EmptyString EmptyString); auto.
    + apply orb_true_iff in Hn as [H1 | H2];
        [ apply matches_alt_l | apply matches_alt_r ]; auto.
    + constructor.
  - intros Hm. remember EmptyString as s eqn:Hs.
    induction Hm; simpl; try discriminate; try done.
    + apply append_nil_inv in Hs as [-> ->].
      rewrite IHHm1, IHHm2 by done. done.
    + rewrite IHHm by done. done.
    + rewrite IHHm by done. by rewrite orb_true_r.
Qed.

Lemma star_cons_inv r c s :
  matches (re.Star r) (String c s) ->
  exists s1 s2,
    s = s1 +:+ s2 /\ matches r (String c s1) /\ matches (re.Star r) s2.
Proof.
  intros Hm. remember (re.Star r) as r0 eqn:Hr.
  remember (String c s) as s0 eqn:Hs.
  induction Hm; try discriminate.
  injection Hr as ->.
  apply append_cons_inv in Hs as [[-> ->] | (s1' & -> & ->)].
  - by apply IHHm2.
  - eauto.
Qed.

Lemma deriv_matches r : forall c s,
  matches (re.deriv c r) s <-> matches r (String c s).
Proof.
  induction r as [ | | p | r1 IH1 r2 IH2 | r1 IH1 r2 IH2 | r IH];
    intros c s; simpl.
  - split; intros Hm; inversion Hm.
  - split; intros Hm; inversion Hm.
  - destruct (p c) eqn:Hp; split; intros Hm; inversion Hm; subst.
    + by constructor.
    + constructor.
    + congruence.
  - split.
    + intros Hm.
      assert (matches (re.Cat (re.deriv c r1) r2) s
              \/ (re.nullable r1 = true /\ matches (re.deriv c r2) s))
        as [Hl | [Hn Hr]].
      { destruct (re.nullable r1); [ | by left ].
        inversion Hm; subst; [ by left | by right ]. }
      * inversion Hl; subst.
        apply (matches_cat r1 r2 (String c s1) s2); [ by apply IH1 | done ].
      * apply (matches_cat r1 r2 EmptyString (String c s));
          [ by apply nullable_matches | by apply IH2 ].
    + intros Hm. apply matches_cat_inv in Hm as (s1 & s2 & Heq & H1 & H2).
      symmetry in Heq.
      apply append_cons_inv in Heq as [[-> ->] | (s1' & -> & ->)].
      * apply nullable_matches in H1. rewrite H1.
        apply matches_alt_r. by apply IH2.
      * assert (matches (re.Cat (re.deriv c r1) r2) (s1' +:+ s2)) as Hc.
        { apply matches_cat; [ by apply IH1 | done ]. }
        destruct (re.nullable r1); [ by apply matches_alt_l | done ].
  - split; intros Hm; inversion Hm; subst.
    + apply matches_alt_l. by apply IH1.
    + apply matches_alt_r. by apply IH2.
    + apply matches_alt_l. by apply IH1.
    + apply matches_alt_r. by apply IH2.
  - split.
    + intros Hm. inversion Hm; subst.
      apply (matches_star_cons r (String c s1) s2); [ by apply IH | done ].
    + intros Hm. apply star_cons_inv in Hm as (s1 & s2 & -> & H1 & H2).
      apply matches_cat; [ by apply IH | done ].
Qed.

(** The matcher decides the language of the pattern. *)
Lemma fullmatch_matches s : forall r,
  re.fullmatch r s = true <-> matches r s.
Proof.
  induction s as [ | c s IH]; intros r; simpl.
  - apply nullable_matches.
  - rewrite IH. apply deriv_matches.
Qed.

End email_format.

Section email_structure.

Lemma all_chars_append p s1 s2 :
  all_chars p (s1 +:+ s2) = all_chars p s1 && all_chars p s2.
Proof.
  induction s1 as [ | c s1 IH]; rewrite ?append_nil_l, ?append_cons; simpl;
    [ done | ].
  rewrite IH. by rewrite andb_assoc.
Qed.

Lemma length_append s1 s2 :
  String.length (s1 +:+ s2) = (String.length s1 + String.length s2)%nat.
Proof.
  induction s1 as [ | c s1 IH]; rewrite ?append_nil_l, ?append_cons; simpl;
    [ done | by rewrite IH ].
Qed.

Lemma matches_star_cls p s :
  matches (re.Star (re.Cls p)) s <-> all_chars p s = true.
Proof.
  split.
  - intros Hm. remember (re.Star (re.Cls p)) as r eqn:Hr.
    induction Hm; try discriminate; [ done | ].
    injection Hr as ->.
    apply matches_cls_inv in Hm1 as (c & -> & Hc).
    rewrite all_chars_append. simpl. rewrite Hc. simpl. by apply IHHm2.
  - induction s as [ | c s IH]; simpl; intros Hall; [ constructor | ].
    apply andb_true_iff in Hall as [Hc Hs].
    apply (matches_star_cons (re.Cls p) (String c EmptyString) s);
      [ by constructor | by apply IH ].
Qed.

Lemma matches_plus_cls p s :
  matches (re.Plus (re.Cls p)) s <-> s <> EmptyString /\ all_chars p s = true.
Proof.
  unfold re.Plus. split.
  - intros Hm. apply matches_cat_inv in Hm as (s1 & s2 & -> & H1 & H2).
    apply matches_cls_inv in H1 as (c & -> & Hc).
    apply matches_star_cls in H2.
    rewrite append_cons, append_nil_l. simpl. by rewrite Hc, H2.
  - intros [Hne Hall]. destruct s as [ | c s]; [ done | ].
    simpl in Hall. apply andb_true_iff in Hall as [Hc Hs].
    apply (matches_cat _ _ (String c EmptyString) s);
      [ by constructor | by apply matches_star_cls ].
Qed.

Lemma matches_atleast2_cls p s :
  matches (re.AtLeast2 (re.Cls p)) s
  <-> (2 <= String.length s)%nat /\ all_chars p s = true.
Proof.
  unfold re.AtLeast2. split.
  - intros Hm. apply matches_cat_inv in Hm as (s1 & s' & -> & H1 & H').
    apply matches_cat_inv in H' as (s2 & s3 & -> & H2 & H3).
    apply matches_cls_inv in H1 as (c1 & -> & Hc1).
    apply matches_cls_inv in H2 as (c2 & -> & Hc2).
    apply matches_star_cls in H3.
    rewrite !append_cons, !append_nil_l. simpl.
    rewrite Hc1, Hc2, H3. split; [ lia | done ].
  - intros [Hlen Hall].
    destruct s as [ | c1 [ | c2 s]]; simpl in Hlen; [ lia | lia | ].
    simpl in Hall.
    apply andb_true_iff in Hall as [Hc1 Hall].
    apply andb_true_iff in Hall as [Hc2 Hs].
    apply (matches_cat _ _ (String c1 EmptyString) (String c2 s));
      [ by constructor | ].
    apply (matches_cat _ _ (String c2 EmptyString) s);
      [ by constructor | by apply matches_star_cls ].
Qed.

Lemma matches_lit x s :
  matches (re.lit x) s <-> s = String x EmptyString.
Proof.
  unfold re.lit. split.
  - intros Hm. apply matches_cls_inv in Hm as (c & -> & Hc).
    by apply bool_decide_eq_true_1 in Hc as ->.
  - intros ->. constructor. by apply bool_decide_eq_true_2.
Qed.

Lemma matches_dollar s :
  matches re.dollar s <-> s = EmptyString \/ s = String "010" EmptyString.
Proof.
  unfold re.dollar. split.
  - intros Hm. apply matches_alt_inv in Hm as [Hm | Hm].
    + inversion Hm. by left.
    + apply matches_lit in Hm. by right.
  - intros [-> | ->].
    + apply matches_alt_l. constructor.
    + apply matches_alt_r. by apply matches_lit.
Qed.

(** What [validate_email_format] accepts: exactly the strings made of a
    non-empty local part of letters, digits and [._%+-], an at sign, a
    non-empty domain of letters, digits, dots and hyphens, a dot, and two
    letters or more; and the same followed by one newline, which the end
    anchor of the pattern lets through. *)
Theorem validate_email_format_spec email :
  validation.validate_email_format email = true
  <-> exists local domain tld newline,
        email = local +:+ "@" +:+ domain +:+ "." +:+ tld +:+ newline
        /\ local <> EmptyString
        /\ all_chars validation.local_char local = true
        /\ domain <> EmptyString
        /\ all_chars validation.domain_char domain = true
        /\ (2 <= String.length tld)%nat
        /\ all_chars validation.alpha tld = true
        /\ (newline = EmptyString \/ newline = String "010" EmptyString).
Proof.
  unfold validation.validate_email_format, re.match_anchored,
    validation.email_pattern.
  rewrite fullmatch_matches. split.
  - intros Hm.
    apply matches_cat_inv in Hm as (body & newline & -> & Hbody & Hnl).
    apply matches_cat_inv in Hbody as (local & r1 & -> & Hlocal & Hr1).
    apply matches_cat_inv in Hr1 as (at_ & r2 & -> & Hat & Hr2).
    apply matches_cat_inv in Hr2 as (domain & r3 & -> & Hdomain & Hr3).
    apply matches_cat_inv in Hr3 as (dot & tld & -> & Hdot & Htld).
    apply matches_lit in Hat as ->. apply matches_lit in Hdot as ->.
    apply matches_plus_cls in Hlocal as [Hl1 Hl2].
    apply matches_plus_cls in Hdomain as [Hd1 Hd2].
    apply matches_atleast2_cls in Htld as [Ht1 Ht2].
    apply matches_dollar in Hnl.
    exists local, domain, tld, newline.
    split; [ by rewrite !append_assoc | done ].
  - intros (local & domain & tld & newline & -> & Hl1 & Hl2 & Hd1 & Hd2
            & Ht1 & Ht2 & Hnl).
    replace (local +:+ "@" +:+ domain +:+ "." +:+ tld +:+ newline)
      with ((local +:+ "@" +:+ domain +:+ "." +:+ tld) +:+ newline)
      by (by rewrite !append_assoc).
    apply matches_cat; [ | by apply matches_dollar ].
    apply matches_cat; [ by apply matches_plus_cls | ].
    apply matches_cat; [ by apply matches_lit | ].
    apply matches_cat; [ by apply matches_plus_cls | ].
    apply matches_cat; [ by apply matches_lit | ].
    by apply matches_atleast2_cls.
Qed.

End email_structure.

(** *** Runs of the further properties on the example data *)

Lemma verify_token_sound_witness :
  exists payload,
    example_tokens.access
    = Jws "HS256" payload
        (@hmac_sha256 stub_hmac (BETTER_AUTH_SECRET example.settings)
                      ("HS256", payload))
    /\ payload !! "sub" = Some (JStr (User.id example.alice))
    /\ payload !! "email" = Some (JStr (User.email example.alice))
    /\ TokenData.exp example2.alice_data = None
    /\ forall x, token_exp example_tokens.access = Some x ->
                 1 < x * datetime.second.
Proof.
  apply (@verify_token_sound stub_hmac example.settings 1
           example_tokens.access None example2.alice_data).
  vm_compute. reflexivity.
Defined.

Lemma verify_token_missing_claim_witness :
  @utils_jwt.verify_token stub_hmac example.settings 1 example2.no_subject
    None
  = Raise utils_jwt.default_credentials_exception.
Proof.
  apply (@verify_token_missing_claim stub_hmac example.settings 1
           example2.no_subject None (<["email" := JStr "a@x.com"]> ∅)).
  - vm_compute. reflexivity.
  - left. vm_compute. reflexivity.
Defined.

Lemma refresh_round_trip_witness :
  @utils_jwt.refresh_access_token stub_hmac example.settings 1
    example2.refresh
  = Ok (@utils_jwt.create_access_token stub_hmac example.settings 1
          example_tokens.claims None)
  /\ (0 < JWT_EXPIRATION_HOURS example.settings ->
      @utils_jwt.verify_access_token stub_hmac example.settings 1
        (@utils_jwt.create_access_token stub_hmac example.settings 1
           example_tokens.claims None)
      = Ok example2.alice_data).
Proof.
  apply (@refresh_round_trip stub_hmac example.settings 0 1
           (User.id example.alice) (User.email example.alice) None 604800).
  - vm_compute. reflexivity.
  - vm_compute. reflexivity.
Defined.

Lemma refresh_rejects_access_token_witness :
  @utils_jwt.refresh_access_token stub_hmac example.settings 1
    example_tokens.access
  = Raise invalid_token_type
  /\ @api_auth.refresh_access_token_endpoint stub_hmac example.settings 1
       example_tokens.access
     = Raise invalid_token_type.
Proof.
  apply (@refresh_rejects_access_token stub_hmac example.settings 0 1
           (User.id example.alice) (User.email example.alice) None 86400).
  - vm_compute. reflexivity.
  - vm_compute. reflexivity.
Defined.

Lemma get_current_user_sound_witness :
  example.alice ∈ users example.db
  /\ User.is_active example.alice = true
  /\ exists payload sub email,
       example_tokens.access
       = Jws "HS256" payload
           (@hmac_sha256 stub_hmac (BETTER_AUTH_SECRET example.settings)
                         ("HS256", payload))
       /\ payload !! "sub" = Some (JStr sub)
       /\ payload !! "email" = Some (JStr email)
       /\ UserService.get_user_by_id example.db sub = Some example.alice
       /\ forall x, token_exp example_tokens.access = Some x ->
                    1 < x * datetime.second.
Proof.
  apply (@get_current_user_sound stub_hmac example.settings example.db 1
           example_tokens.access example.alice).
  vm_compute. reflexivity.
Defined.

Lemma get_current_user_complete_witness :
  @deps.get_current_user stub_hmac example.settings example.db 1
    (@UserService.create_access_token_for_user stub_hmac example.settings 0
       example.alice)
  = Ok example.alice.
Proof.
  apply (@get_current_user_complete stub_hmac example.settings example.db 0 1
           example.alice).
  - reflexivity.
  - reflexivity.
  - vm_compute. reflexivity.
Defined.

Lemma get_current_active_user_after_guard_witness :
  deps.get_current_active_user example.alice = Ok example.alice.
Proof.
  apply (@get_current_active_user_after_guard stub_hmac example.settings
           example.db 1 example_tokens.access example.alice).
  vm_compute. reflexivity.
Defined.

Lemma register_duplicate_email_witness :
  @UserService.register_user stub_hmac example.settings stub_hasher example.db
    example2.duplicate_request example2.carol_id "salt" 1 1 1
  = Ok (None, example.db)
  /\ (validation.validate_email_format
        (RegisterRequest.email example2.duplicate_request) = true ->
      @api_auth.register_user stub_hmac example.settings stub_hasher
        example.db example2.duplicate_request example2.carol_id "salt" 1 1 1
      = Raise email_already_exists).
Proof.
  apply (@register_duplicate_email stub_hmac stub_hasher example.settings
           example.db example2.duplicate_request example2.carol_id "salt"
           1 1 1 example.alice).
  reflexivity.
Defined.

Lemma register_then_login_witness :
  let carol :=
    {| User.id := example2.carol_id;
       User.email := "c@x.com";
       User.hashed_password := "$2b$12$Secur3Pass";
       User.is_active := true;
       User.created_at := 1;
       User.updated_at := 1 |} in
  let db' := {| users := users example.db ++ [carol];
                tasks := tasks example.db |} in
  (forall later,
     @api_auth.login_user stub_hmac StubBcrypt.handler example.settings db'
       later (example.login "c@x.com" "Secur3Pass")
     = Ok {| AuthResponse.success := true;
             AuthResponse.token :=
               @UserService.create_access_token_for_user stub_hmac
                 example.settings later carol;
             AuthResponse.user := (example2.carol_id, "c@x.com") |})
  /\ (0 < JWT_EXPIRATION_HOURS example.settings ->
      forall later,
        @deps.get_current_user stub_hmac example.settings db' later
          (@UserService.create_access_token_for_user stub_hmac
             example.settings later carol)
        = Ok carol).
Proof.
  cbv zeta.
  apply (@register_then_login stub_hmac StubBcrypt.handler stub_hasher
           example.settings example.db example2.carol_request
           example2.carol_id "salt" 1 1 1 "$2b$12$Secur3Pass");
    reflexivity || (vm_compute; discriminate).
Defined.


Lemma deactivate_then_activate_witness :
  exists db' db'',
    UserService.deactivate_user example.db (User.id example.alice)
    = (true, db')
    /\ UserService.activate_user db' (User.id example.alice) = (true, db'')
    /\ DatabaseService.get_user_by_id db'' (User.id example.alice)
       = Some example.alice.
Proof.
  apply (deactivate_then_activate example.db (User.id example.alice)
           example.alice); reflexivity.
Defined.

Lemma update_password_then_login_witness :
  exists db',
    @UserService.update_user_password stub_hasher example.db
      (User.id example.alice) "N3wPassword" "salt"
    = Ok (true, db')
    /\ DatabaseService.get_user_by_id db' (User.id example.alice)
       = Some (UserService.set_hashed_password "$2b$12$N3wPassword"
                 example.alice)
    /\ @UserService.authenticate_user stub_hmac StubBcrypt.handler
         example.settings db' 1 (example.login "a@x.com" "N3wPassword")
       = Ok (Some {| AuthResponse.success := true;
                     AuthResponse.token :=
                       @UserService.create_access_token_for_user stub_hmac
                         example.settings 1 example.alice;
                     AuthResponse.user :=
                       (User.id example.alice, User.email example.alice) |}).
Proof.
  apply (@update_password_then_login stub_hmac StubBcrypt.handler stub_hasher
           example.settings example.db example.alice "N3wPassword" "salt"
           "$2b$12$N3wPassword" 1);
    reflexivity || (vm_compute; discriminate).
Defined.

Lemma example_db_unique :
  user_ids_unique example.db /\ user_emails_unique example.db
  /\ task_ids_unique example.db.
Proof.
  unfold user_ids_unique, user_emails_unique, task_ids_unique.
  split; [ | split ]; apply (bool_decide_unpack _); vm_compute; reflexivity.
Defined.

Lemma user_table_stays_unique_witness :
  (forall user_data new_id salt created_at updated_at now r db',
     @UserService.register_user stub_hmac example.settings stub_hasher
       example.db user_data new_id salt created_at updated_at now
     = Ok (r, db') ->
     user_ids_unique db' /\ user_emails_unique db')
  /\ (forall user_id ok db',
        UserService.deactivate_user example.db user_id = (ok, db') ->
        user_ids_unique db' /\ user_emails_unique db')
  /\ (forall user_id ok db',
        UserService.activate_user example.db user_id = (ok, db') ->
        user_ids_unique db' /\ user_emails_unique db').
Proof.
  apply (@user_table_stays_unique stub_hmac stub_hasher example.settings
           example.db).
  - apply example_db_unique.
  - apply example_db_unique.
Defined.

Lemma blacklist_in_memory_frame_witness :
  exists self',
    @TokenService.blacklist_token _ FakeRedis.client example2.in_memory 1
      example_tokens.access None
    = Ok (true, self')
    /\ TokenService.redis_client self' = None
    /\ forall later other,
         @TokenService.is_token_blacklisted _ FakeRedis.client self' later
           other
         = Ok (bool_decide (other = example_tokens.access)
               || bool_decide
                    (other ∈ TokenService._blacklisted_tokens
                               example2.in_memory))
         /\ @TokenService.is_token_blacklisted _ FakeRedis.client
              example2.in_memory later other
            = Ok (bool_decide
                    (other ∈ TokenService._blacklisted_tokens
                               example2.in_memory)).
Proof.
  apply (@blacklist_in_memory_frame _ FakeRedis.client example2.in_memory 1
           example_tokens.access None).
  reflexivity.
Defined.

Lemma update_then_get_witness :
  api_tasks.get_task (snd example2.updated) (Task.id example.alice_task)
                     example.alice
  = Ok (fst example2.updated)
  /\ users (snd example2.updated) = users example.db
  /\ Task.updated_at (fst example2.updated) = 1
  /\ exists before,
       api_tasks.get_task example.db (Task.id example.alice_task)
                          example.alice = Ok before
       /\ Task.id (fst example2.updated) = Task.id before
       /\ Task.user_id (fst example2.updated) = Task.user_id before
       /\ Task.created_at (fst example2.updated) = Task.created_at before.
Proof.
  apply (update_then_get example.db 1 (Task.id example.alice_task)
           example.no_update example.alice (fst example2.updated)
           (snd example2.updated)).
  reflexivity.
Defined.

Lemma delete_then_get_witness :
  api_tasks.get_task (snd example2.deleted) (Task.id example.alice_task)
                     example.alice
  = Raise api_tasks.not_found
  /\ api_tasks.update_task (snd example2.deleted) 2
       (Task.id example.alice_task) example.no_update example.alice
     = Raise api_tasks.not_found
  /\ api_tasks.delete_task (snd example2.deleted)
       (Task.id example.alice_task) example.alice
     = Raise api_tasks.not_found
  /\ users (snd example2.deleted) = users example.db
  /\ forall t, t ∈ tasks (snd example2.deleted)
               <-> t ∈ tasks example.db
                   /\ Task.id t <> Task.id example.alice_task.
Proof.
  apply (delete_then_get example.db 2 (Task.id example.alice_task)
           example.no_update example.alice (fst example2.deleted)
           (snd example2.deleted)).
  reflexivity.
Defined.

Lemma writes_leave_other_users_tasks_witness :
  (forall task_update task db',
     api_tasks.update_task example.db 1 (Task.id example.alice_task)
                           task_update example.alice
     = Ok (task, db') ->
     other_users_tasks db' (User.id example.alice)
     = other_users_tasks example.db (User.id example.alice))
  /\ (forall task_patch task db',
        api_tasks.patch_task example.db 1 (Task.id example.alice_task)
                             task_patch example.alice
        = Ok (task, db') ->
        other_users_tasks db' (User.id example.alice)
        = other_users_tasks example.db (User.id example.alice))
  /\ (forall msg db',
        api_tasks.delete_task example.db (Task.id example.alice_task)
                              example.alice
        = Ok (msg, db') ->
        other_users_tasks db' (User.id example.alice)
        = other_users_tasks example.db (User.id example.alice)).
Proof.
  apply (writes_leave_other_users_tasks example.db 1
           (Task.id example.alice_task) example.alice).
  apply example_db_unique.
Defined.

Lemma create_then_get_witness :
  tasks (snd example2.created)
  = (tasks example.db ++ [fst example2.created])%list
  /\ users (snd example2.created) = users example.db
  /\ Task.id (fst example2.created) = example2.shopping_id
  /\ Task.user_id (fst example2.created) = User.id example.alice
  /\ api_tasks.get_task (snd example2.created) example2.shopping_id
                        example.alice
     = Ok (fst example2.created)
  /\ (forall other,
        User.id other <> User.id example.alice ->
        api_tasks.get_task (snd example2.created) example2.shopping_id other
        = Raise api_tasks.not_found)
  /\ (forall task_id user,
        task_id <> example2.shopping_id ->
        api_tasks.get_task (snd example2.created) task_id user
        = api_tasks.get_task example.db task_id user).
Proof.
  apply (create_then_get example.db example2.shopping example.alice
           example2.shopping_id 2 2 (fst example2.created)
           (snd example2.created)).
  reflexivity.
Defined.

Lemma task_ids_stay_unique_witness :
  (forall task_create new_id created_at updated_at task db',
     api_tasks.create_task example.db task_create example.alice new_id
                           created_at updated_at = Ok (task, db') ->
     task_ids_unique db')
  /\ (forall task_id task_update task db',
        api_tasks.update_task example.db 1 task_id task_update example.alice
        = Ok (task, db') ->
        task_ids_unique db')
  /\ (forall task_id task_patch task db',
        api_tasks.patch_task example.db 1 task_id task_patch example.alice
        = Ok (task, db') ->
        task_ids_unique db')
  /\ (forall task_id msg db',
        api_tasks.delete_task example.db task_id example.alice
        = Ok (msg, db') ->
        task_ids_unique db').
Proof.
  apply (task_ids_stay_unique example.db 1 example.alice).
  apply example_db_unique.
Defined.

Lemma get_task_stats_own_tasks_only_witness :
  TaskService.get_task_stats example.db 10 (User.id example.alice)
  = TaskService.get_task_stats example2.db_with_bob_task 10
                               (User.id example.alice).
Proof.
  apply (get_task_stats_own_tasks_only example.db example2.db_with_bob_task
           10 (User.id example.alice)).
  reflexivity.
Defined.

Lemma mark_task_completed_then_get_witness :
  exists task db',
    TaskService.mark_task_completed example.db 1
      (Task.id example.alice_task) (User.id example.alice)
    = Ok (Some task, db')
    /\ Task.completed task = true
    /\ task = TaskService.set_updated_at 1
                {| Task.id := Task.id example.alice_task;
                   Task.title := Task.title example.alice_task;
                   Task.description := Task.description example.alice_task;
                   Task.due_date := Task.due_date example.alice_task;
                   Task.priority := Task.priority example.alice_task;
                   Task.completed := true;
                   Task.user_id := Task.user_id example.alice_task;
                   Task.created_at := Task.created_at example.alice_task;
                   Task.updated_at := Task.updated_at example.alice_task |}
    /\ api_tasks.get_task db' (Task.id example.alice_task) example.alice
       = Ok task
    /\ exists db'',
         TaskService.mark_task_completed db' 2 (Task.id example.alice_task)
                                         (User.id example.alice)
         = Ok (Some (TaskService.set_updated_at 2 task), db'').
Proof.
  apply (mark_task_completed_then_get example.db 1 2
           (Task.id example.alice_task) example.alice example.alice_task).
  reflexivity.
Defined.
